(** * rootz-mcp-server: the tool handlers of [src/index.ts]

    The source file holds two independent variants of the same tool set:

    - [RootzMCPServer]  (lines 20-236): shells out through [child_process.exec]
      ([git clone], [git pull], [cat]) and scans markup with regular
      expressions;
    - [RootzMCPService] (lines 267-418): uses [simple-git], [fs/promises],
      [path] and [cheerio], and wraps every tool call in one [try]/[catch].

    Both are embedded here.  Strings are [string]s whose characters stand for
    code units (the development covers the 8-bit range); lengths are in [N].
    Everything the handlers obtain from outside the process (the shell, the
    file system, git, the markup parser, the JSON printer) is a field of an
    environment record [Env]; each handler is a computation in a state and
    exception monad over the outside world, and records the operations it
    attempts in a trace. *)

From Stdlib Require Import String Ascii List Bool NArith PeanoNat Lia.
From Stdlib Require Import Sorting.Mergesort Sorting.Sorted Sorting.Permutation.
From Stdlib Require Import DecimalString RelationClasses.
Import ListNotations.

Local Open Scope list_scope.
Local Open Scope string_scope.

(** ** JavaScript string primitives used by the handlers *)

Module Js.

(** The line feed written [\n] in the source's template literals. *)
Definition nl : string := String "010"%char EmptyString.

(** The double quote of the shell command line. *)
Definition dquote : string := String "034"%char EmptyString.

(** [s.length] *)
Definition length (s : string) : N := N.of_nat (String.length s).

(** [s.substring(a, b)] for non-negative arguments: the arguments are swapped
    when [a > b], and both are clamped to the length. *)
Definition substring (a b : N) (s : string) : string :=
  let lo := N.min a b in
  let hi := N.max a b in
  String.substring (N.to_nat lo) (N.to_nat (hi - lo)) s.

(** [s.slice(a, b)] for non-negative arguments: empty when [a >= b]. *)
Definition slice (a b : N) (s : string) : string :=
  String.substring (N.to_nat a) (N.to_nat (b - a)) s.

(** [!s] on a string: only the empty string is falsy. *)
Definition truthy (s : string) : bool :=
  match s with EmptyString => false | String _ _ => true end.

(** White space of [String.prototype.trim] and of the class [\s], within the
    8-bit range: TAB, LF, VT, FF, CR, SPACE and NBSP. *)
Definition is_space (c : ascii) : bool :=
  let n := N_of_ascii c in
  ((9 <=? n) && (n <=? 13) || (n =? 32) || (n =? 160))%N.

Fixpoint trimStart (s : string) : string :=
  match s with
  | EmptyString => EmptyString
  | String c s' => if is_space c then trimStart s' else s
  end.

(** Drops the white space at the end: a character is kept when it is not a
    space or when something is kept after it. *)
Fixpoint trimEnd (s : string) : string :=
  match s with
  | EmptyString => EmptyString
  | String c s' =>
      match trimEnd s' with
      | EmptyString => if is_space c then EmptyString else String c EmptyString
      | r => String c r
      end
  end.

(** [s.trim()] *)
Definition trim (s : string) : string := trimEnd (trimStart s).

(** [s.split(' ')]: the pieces between single spaces, empty pieces kept. *)
Fixpoint split_on (sep : ascii) (s : string) : list string :=
  match s with
  | EmptyString => [EmptyString]
  | String c s' =>
      if Ascii.eqb c sep then EmptyString :: split_on sep s'
      else match split_on sep s' with
           | [] => [String c EmptyString]
           | p :: ps => String c p :: ps
           end
  end.

(** [s.split(/\s+/)]: the pieces between maximal runs of white space; a run
    at either end leaves an empty piece there.  [in_run] tells that the
    character before was white space. *)
Fixpoint split_ws_from (in_run : bool) (s : string) : list string :=
  match s with
  | EmptyString => [EmptyString]
  | String c s' =>
      if is_space c then
        if in_run then split_ws_from true s'
        else EmptyString :: split_ws_from true s'
      else match split_ws_from false s' with
           | [] => [String c EmptyString]
           | p :: ps => String c p :: ps
           end
  end.

Definition split_ws (s : string) : list string := split_ws_from false s.

(** [c.toLowerCase()] on one code unit of the 8-bit range: A-Z, and the
    Latin-1 capitals U+00C0-U+00DE except the multiplication sign U+00D7. *)
Definition is_upper (c : ascii) : bool :=
  let n := N_of_ascii c in
  ((65 <=? n) && (n <=? 90)
   || (192 <=? n) && (n <=? 222) && negb (n =? 215))%N.

Definition lower_char (c : ascii) : ascii :=
  if is_upper c then ascii_of_N (N_of_ascii c + 32) else c.

(** [s.toLowerCase()] *)
Fixpoint toLowerCase (s : string) : string :=
  match s with
  | EmptyString => EmptyString
  | String c s' => String (lower_char c) (toLowerCase s')
  end.

(** A string with no capital letter in it. *)
Fixpoint is_lower (s : string) : bool :=
  match s with
  | EmptyString => true
  | String c s' => negb (is_upper c) && is_lower s'
  end.

(** Every character of the string satisfies [p]. *)
Fixpoint every (p : ascii -> bool) (s : string) : bool :=
  match s with
  | EmptyString => true
  | String c s' => p c && every p s'
  end.

(** [`${n}`] for a non-negative integer. *)
Definition of_nat (n : nat) : string :=
  NilZero.string_of_uint (Nat.to_uint n).

(** [new Set(xs)] followed by iteration ([Array.from], spread): the distinct
    members in the order of their first insertion.  [add_all seen xs] is the
    content of the set after adding [xs] to a set holding [seen] (kept in
    reverse insertion order). *)
Fixpoint add_all (seen : list string) (xs : list string) : list string :=
  match xs with
  | [] => seen
  | x :: xs' =>
      if existsb (String.eqb x) seen then add_all seen xs'
      else add_all (x :: seen) xs'
  end.

Definition Set_from (xs : list string) : list string := rev (add_all [] xs).

(** The order of first occurrence, said directly: the head of the list
    stays where it is, and its later occurrences are struck from what
    follows. *)
Fixpoint first_occurrences (xs : list string) : list string :=
  match xs with
  | [] => []
  | x :: xs' =>
      x :: filter (fun y => negb (String.eqb y x)) (first_occurrences xs')
  end.

(** The order of [Array.prototype.sort] without a comparator: code units,
    lexicographically. *)
Module CodeUnitOrder <: Orders.TotalLeBool.
Definition t := string.
Definition leb := String.leb.
Definition leb_total : forall a1 a2, leb a1 a2 = true \/ leb a2 a1 = true :=
  String.leb_total.
End CodeUnitOrder.

Module CodeUnitSort := Sort CodeUnitOrder.

(** [xs.sort()] *)
Definition sort (xs : list string) : list string := CodeUnitSort.sort xs.

(** Strictly ascending in the order of code units. *)
Definition ascending (xs : list string) : Prop :=
  StronglySorted (fun a b => String.ltb a b = true) xs.

End Js.

(** ** Regular expressions of the scanning variant

    The three patterns of [analyzeHtmlStructure] are sequences of literals,
    character classes, greedy [+] and [*] over a class, and one capture
    group.  [matchHere] is the backtracking matcher for such a sequence at
    the head of the input; it returns the text of group 1 and the input left
    after the match. *)

Module Regex.

Inductive atom : Type :=
| Lit (c : ascii)
| Cls (p : ascii -> bool)
| Plus (p : ascii -> bool)
| Star (p : ascii -> bool)
| Open
| Close.

Definition pattern : Type := list atom.

(** Group 1 collects the characters consumed between [Open] and [Close]
    (kept in reverse while matching). *)
Definition push (g : bool) (x : ascii) (cap : list ascii) : list ascii :=
  if g then x :: cap else cap.

(** Greedy repetition of the class [p]: take one more character when
    possible, and give it back when the rest of the pattern [k] fails. *)
Fixpoint star_loop (p : ascii -> bool)
    (k : list ascii -> string -> option (string * string))
    (g : bool) (cap : list ascii) (s : string) {struct s}
    : option (string * string) :=
  match s with
  | String x s' =>
      if p x then
        match star_loop p k g (push g x cap) s' with
        | Some r => Some r
        | None => k cap s
        end
      else k cap s
  | EmptyString => k cap s
  end.

Fixpoint matchHere (pat : pattern) (g : bool) (cap : list ascii) (s : string)
    {struct pat} : option (string * string) :=
  match pat with
  | [] => Some (string_of_list_ascii (rev cap), s)
  | Lit c :: pat' =>
      match s with
      | String x s' =>
          if Ascii.eqb x c then matchHere pat' g (push g x cap) s' else None
      | EmptyString => None
      end
  | Cls p :: pat' =>
      match s with
      | String x s' =>
          if p x then matchHere pat' g (push g x cap) s' else None
      | EmptyString => None
      end
  | Plus p :: pat' =>
      match s with
      | String x s' =>
          if p x then star_loop p (matchHere pat' g) g (push g x cap) s'
          else None
      | EmptyString => None
      end
  | Star p :: pat' => star_loop p (matchHere pat' g) g cap s
  | Open :: pat' => matchHere pat' true cap s
  | Close :: pat' => matchHere pat' false cap s
  end.

(** [re.exec(s)] from [lastIndex] (the start of [s] here): the match at the
    first position where the pattern matches, or [None] for [null]. *)
Fixpoint exec (pat : pattern) (s : string) {struct s}
    : option (string * string) :=
  match matchHere pat false [] s with
  | Some r => Some r
  | None =>
      match s with
      | EmptyString => None
      | String _ s' => exec pat s'
      end
  end.

(** [while ((match = re.exec(s)) !== null) { ... match[1] ... }] with the [g]
    flag: the captures of the successive matches.  [None] when the fuel runs
    out before [exec] answers [null]. *)
Fixpoint exec_loop (fuel : nat) (pat : pattern) (s : string)
    : option (list string) :=
  match fuel with
  | O => None
  | S fuel' =>
      match exec pat s with
      | None => Some []
      | Some (cap, rest) => option_map (cons cap) (exec_loop fuel' pat rest)
      end
  end.

(** Each match of the patterns below consumes at least one character, so
    one more iteration than the input has characters is enough (lemma
    [exec_loop_enough]). *)
Definition all_matches (pat : pattern) (s : string) : list string :=
  match exec_loop (S (String.length s)) pat s with
  | Some caps => caps
  | None => []
  end.

Fixpoint lits (s : string) : pattern :=
  match s with
  | EmptyString => []
  | String c s' => Lit c :: lits s'
  end.

(** The quote class (double or single quote) and its complement. *)
Definition is_quote (c : ascii) : bool :=
  Ascii.eqb c "034"%char || Ascii.eqb c "'"%char.
Definition not_quote (c : ascii) : bool := negb (is_quote c).

(** [\w]: [A-Za-z0-9_] *)
Definition is_word (c : ascii) : bool :=
  let n := N_of_ascii c in
  ((65 <=? n) && (n <=? 90) || (97 <=? n) && (n <=? 122)
   || (48 <=? n) && (n <=? 57) || (n =? 95))%N.

(** [[^>]] *)
Definition not_gt (c : ascii) : bool := negb (Ascii.eqb c ">"%char).

(** The pattern [class=Q([^Q]+)Q] with flag [g], where [Q] is the class of
    the double and the single quote. *)
Definition classRegex : pattern :=
  (lits "class=" ++ [Cls is_quote; Open; Plus not_quote; Close; Cls is_quote])%list.

(** The pattern [id=Q([^Q]+)Q] with flag [g]. *)
Definition idRegex : pattern :=
  (lits "id=" ++ [Cls is_quote; Open; Plus not_quote; Close; Cls is_quote])%list.

(** A pattern without a capture group in it. *)
Fixpoint no_group (pat : pattern) : bool :=
  match pat with
  | [] => true
  | Open :: _ | Close :: _ => false
  | _ :: pat' => no_group pat'
  end.

(** What is left after a match is no longer than the input. *)
Definition shrinks (k : list ascii -> string -> option (string * string)) : Prop :=
  forall cap s c rest,
    k cap s = Some (c, rest) -> String.length rest <= String.length s.

(** [/<(\w+)[^>]*>/g] *)
Definition tagRegex : pattern :=
  [Lit "<"%char; Open; Plus is_word; Close; Star not_gt; Lit ">"%char].

End Regex.

(** ** [path.join] of Node's POSIX [path] module, as [getFileContent] calls it *)

Module Path.

(** Walks the segments between slashes: empty and [.] segments are dropped,
    [..] removes the segment before it, or stays when there is none to remove
    and the path is relative.  [res] is the result so far, last segment
    first. *)
Fixpoint normalizeSegments (allowAboveRoot : bool) (res : list string)
    (segs : list string) : list string :=
  match segs with
  | [] => rev res
  | seg :: rest =>
      if String.eqb seg EmptyString || String.eqb seg "." then
        normalizeSegments allowAboveRoot res rest
      else if String.eqb seg ".." then
        match res with
        | last :: res' =>
            if String.eqb last ".." then
              normalizeSegments allowAboveRoot
                (if allowAboveRoot then ".." :: res else res) rest
            else normalizeSegments allowAboveRoot res' rest
        | [] =>
            normalizeSegments allowAboveRoot
              (if allowAboveRoot then [".."] else []) rest
        end
      else normalizeSegments allowAboveRoot (seg :: res) rest
  end.

Definition isAbsolute (p : string) : bool :=
  match p with String "/"%char _ => true | _ => false end.

Fixpoint endsWithSlash (p : string) : bool :=
  match p with
  | EmptyString => false
  | String c EmptyString => Ascii.eqb c "/"%char
  | String _ p' => endsWithSlash p'
  end.

(** [path.normalize(p)] *)
Definition normalize (p : string) : string :=
  match p with
  | EmptyString => "."
  | _ =>
      let body :=
        String.concat "/"
          (normalizeSegments (negb (isAbsolute p)) [] (Js.split_on "/"%char p)) in
      match body with
      | EmptyString =>
          if isAbsolute p then "/" else if endsWithSlash p then "./" else "."
      | _ =>
          let body' := if endsWithSlash p then body ++ "/" else body in
          if isAbsolute p then "/" ++ body' else body'
      end
  end.

(** [path.join(a, b)] on two strings: the non-empty arguments are glued with
    a slash and the result is normalized. *)
Definition join (a b : string) : string :=
  match a, b with
  | EmptyString, EmptyString => "."
  | EmptyString, _ => normalize b
  | _, EmptyString => normalize a
  | _, _ => normalize (a ++ "/" ++ b)
  end.

(** A normalized relative path names the directory [root] or something below
    it. *)
Definition within (root p : string) : bool :=
  String.eqb p root || String.prefix (root ++ "/") p.

End Path.

(** ** Errors, responses and the outside world *)

(** An [Error] object as the handlers see it: its [name] and [message]. *)
Record JsError : Type := { name : string; message : string }.

(** [`${error}`], that is [Error.prototype.toString]. *)
Definition error_toString (e : JsError) : string :=
  match name e, message e with
  | EmptyString, m => m
  | n, EmptyString => n
  | n, m => n ++ ": " ++ m
  end.

(** The [TypeError] of [path.join] on an argument that is not a string. *)
Definition ERR_INVALID_ARG_TYPE : JsError :=
  {| name := "TypeError";
     message := "The " ++ Js.dquote ++ "path" ++ Js.dquote
                ++ " argument must be of type string. Received undefined" |}.

(** The [TypeError] of reading a property of [undefined]. *)
Definition ERR_UNDEFINED_PROPERTY (prop : string) : JsError :=
  {| name := "TypeError";
     message := "Cannot read properties of undefined (reading '" ++ prop ++ "')" |}.

Inductive ErrorCode : Type := InvalidParams | InternalError | MethodNotFound.

(** [new McpError(code, message)] of the protocol SDK. *)
Record McpError : Type := { code : ErrorCode; mcp_message : string }.

(** One block [{ type: 'text', text }] of a tool response. *)
Record TextContent : Type := { type : string; text : string }.

Definition text_block (t : string) : TextContent :=
  {| type := "text"; text := t |}.

(** A tool response; [isError] is [None] when the object has no such field. *)
Record Response : Type := { content : list TextContent; isError : option bool }.

(** A [CallTool] request: [params.name] and [params.arguments], the latter
    absent or an object with string fields. *)
Record Request : Type :=
  { tool : string; arguments : option (list (string * string)) }.

Fixpoint field (key : string) (obj : list (string * string)) : option string :=
  match obj with
  | [] => None
  | (k, v) :: obj' => if String.eqb k key then Some v else field key obj'
  end.

(** An argument that is absent or the empty string. *)
Definition missing (v : option string) : Prop :=
  v = None \/ v = Some EmptyString.

(** [`${v}`] for a value that is a string or [undefined]. *)
Definition template (v : option string) : string :=
  match v with Some s => s | None => "undefined" end.

(** One entry of [inputSchema.properties]: the key, its [type] and its
    [description]. *)
Record PropertySchema : Type :=
  { prop_name : string; prop_type : string; prop_description : string }.

(** One entry of the [tools] list of a [ListTools] response.  [td_required]
    is [None] when [inputSchema] has no [required] field. *)
Record ToolDescriptor : Type :=
  { td_name : string;
    td_description : string;
    td_properties : list PropertySchema;
    td_required : option (list string) }.

(** The keys a tool declares as required. *)
Definition required_keys (td : ToolDescriptor) : list string :=
  match td_required td with Some ks => ks | None => [] end.

(** The object [analyzeHtmlStructure] builds. *)
Record HtmlStructure : Type :=
  { file : string;
    classes : list string;
    ids : list string;
    tags : list string;
    summary : string }.

(** An element of the parsed document, as [analyzeHTML] reads it:
    [elem.tagName], [$(elem).attr('class')] and [$(elem).attr('id')]. *)
Record Element : Type :=
  { tagName : option string;
    attr_class : option string;
    attr_id : option string }.

(** An entry of [analysis.elements]. *)
Record ElementInfo : Type :=
  { el_tag : string; el_class : option string; el_id : option string }.

(** The object [analyzeHTML] builds. *)
Record HtmlAnalysis : Type :=
  { an_classes : list string;
    an_ids : list string;
    an_elements : list ElementInfo }.

(** What a handler attempts on the outside world, in order. *)
Inductive Event : Type :=
| EvExec (command : string)
| EvRm (path : string)
| EvClone (url dir : string)
| EvPull (dir remote branch : string)
| EvReadFile (path : string).

(** The outside world [W] and the operations on it.  Each one may change the
    world and either fails with an error object or returns its result. *)
Record Env (W : Type) : Type :=
  { (** [promisify(exec)(command)], the [stdout] of the command *)
    execAsync : string -> W -> W * (JsError + string);
    (** [fs.rm(path, { recursive: true, force: true })] *)
    fs_rm : string -> W -> W * (JsError + unit);
    (** [simpleGit().clone(url, dir)] *)
    git_clone : string -> string -> W -> W * (JsError + unit);
    (** [simpleGit(dir).pull(remote, branch)] *)
    git_pull : string -> string -> string -> W -> W * (JsError + unit);
    (** [fs.readFile(path, 'utf-8')] *)
    fs_readFile : string -> W -> W * (JsError + string);
    (** [cheerio.load(content)] followed by [$('*')]: the elements of the
        parsed document, in document order *)
    cheerio_all : string -> list Element;
    (** [JSON.stringify(analysis, null, 2)] on either analysis object *)
    stringify_structure : HtmlStructure -> string;
    stringify_analysis : HtmlAnalysis -> string }.

Arguments execAsync {W}.
Arguments fs_rm {W}.
Arguments git_clone {W}.
Arguments git_pull {W}.
Arguments fs_readFile {W}.
Arguments cheerio_all {W}.
Arguments stringify_structure {W}.
Arguments stringify_analysis {W}.

(** ** The monad of the handlers: state, trace and exceptions *)

Record State (W : Type) : Type := { world : W; trace : list Event }.

Arguments world {W}.
Arguments trace {W}.

Definition init {W : Type} (w : W) : State W := {| world := w; trace := [] |}.

(** A computation that may throw an [E] or return an [A]. *)
Definition M (W E A : Type) : Type := State W -> State W * (E + A).

Definition ret {W E A : Type} (a : A) : M W E A := fun st => (st, inr a).

Definition throw {W E A : Type} (e : E) : M W E A := fun st => (st, inl e).

Definition bind {W E A B : Type} (c : M W E A) (k : A -> M W E B) : M W E B :=
  fun st =>
    match c st with
    | (st', inr a) => k a st'
    | (st', inl e) => (st', inl e)
    end.

(** [try { c } catch (error) { h error }] *)
Definition try_catch {W E E' A : Type} (c : M W E A) (h : E -> M W E' A)
    : M W E' A :=
  fun st =>
    match c st with
    | (st', inr a) => (st', inr a)
    | (st', inl e) => h e st'
    end.

(** An operation of the environment, recorded in the trace when attempted. *)
Definition perform {W A : Type} (ev : Event) (op : W -> W * (JsError + A))
    : M W JsError A :=
  fun st =>
    let (w', r) := op (world st) in
    ({| world := w'; trace := (trace st ++ [ev])%list |}, r).

Notation "x <- c ;; k" := (bind c (fun x => k))
  (at level 61, c at next level, right associativity).

(** Did the computation attempt to read a file ([cat] through the shell, or
    [fs.readFile])? *)
Definition is_read (ev : Event) : bool :=
  match ev with
  | EvExec c => String.prefix "cat " c
  | EvReadFile _ => true
  | _ => false
  end.

(** ** Variant 1: [class RootzMCPServer] (shell commands, regular expressions) *)

Module RootzMCPServer.

Definition REPO_URL : string :=
  "https://github.com/kenjirou-ozi/rootz-project.git".
Definition LOCAL_PATH : string := "./rootz-project".

(** [`git clone ${REPO_URL} ${LOCAL_PATH}`] *)
Definition clone_command : string :=
  "git clone " ++ REPO_URL ++ " " ++ LOCAL_PATH.

(** [`cd ${LOCAL_PATH} && git pull origin main`] *)
Definition pull_command : string :=
  "cd " ++ LOCAL_PATH ++ " && git pull origin main".

(** The command of both readers: [cat], then the path between double quotes. *)
Definition cat_command (path : string) : string :=
  "cat " ++ Js.dquote ++ LOCAL_PATH ++ "/" ++ path ++ Js.dquote.

(** The size limit written [45000] in [getFileContent]. *)
Definition SIZE_LIMIT : N := 45000.

Section Handlers.
Context {W : Type} (env : Env W).

Definition exec (command : string) : M W JsError string :=
  perform (EvExec command) (execAsync env command).

Definition sync_ok : Response :=
  {| content :=
       [text_block
          "Repository synced successfully with latest changes from GitHub"];
     isError := None |}.

(** [private async syncRepository()], lines 107-135. *)
Definition syncRepository : M W McpError Response :=
  try_catch
    (_ <- try_catch (_ <- exec clone_command ;; ret tt)
                    (fun _ => _ <- exec pull_command ;; ret tt) ;;
     ret sync_ok)
    (fun error =>
       throw {| code := InternalError;
                mcp_message :=
                  "Failed to sync repository: " ++ error_toString error |}).

Definition path_required : McpError :=
  {| code := InvalidParams; mcp_message := "Path is required" |}.

(** The text returned for a file of at most [SIZE_LIMIT] characters, and for
    a longer one. *)
Definition file_text (path stdout : string) : string :=
  "File: " ++ path ++ Js.nl ++ Js.nl ++ stdout.

Definition truncated_text (truncated : string) : string :=
  "File content (truncated to 45KB):" ++ Js.nl ++ Js.nl ++ truncated
  ++ Js.nl ++ Js.nl ++ "[Content truncated due to size limit]".

(** The body of the [try] block of [getFileContent], after [cat] returned. *)
Definition file_response (path stdout : string) : Response :=
  if (SIZE_LIMIT <? Js.length stdout)%N then
    let truncated := Js.substring 0 SIZE_LIMIT stdout in
    {| content := [text_block (truncated_text truncated)]; isError := None |}
  else
    {| content := [text_block (file_text path stdout)]; isError := None |}.

(** [private async getFileContent(path: string)], lines 137-172.  The
    argument is [None] when [arguments?.path] is [undefined]. *)
Definition getFileContent (path : option string) : M W McpError Response :=
  match path with
  | None => throw path_required
  | Some p =>
      if negb (Js.truthy p) then throw path_required
      else
        try_catch
          (stdout <- exec (cat_command p) ;;
           ret (file_response p stdout))
          (fun error =>
             throw {| code := InternalError;
                      mcp_message :=
                        "Failed to read file " ++ p ++ ": "
                        ++ error_toString error |})
  end.

(** The three scans of [analyzeHtmlStructure]: the members of each [Set], in
    insertion order. *)
Definition scan_classes (stdout : string) : list string :=
  Js.Set_from
    (flat_map (fun m => map Js.trim (Js.split_on " "%char m))
       (Regex.all_matches Regex.classRegex stdout)).

Definition scan_ids (stdout : string) : list string :=
  Js.Set_from (Regex.all_matches Regex.idRegex stdout).

Definition scan_tags (stdout : string) : list string :=
  Js.Set_from (Regex.all_matches Regex.tagRegex stdout).

(** The object [analysis] of lines 204-210. *)
Definition analysis (path stdout : string) : HtmlStructure :=
  let classes := scan_classes stdout in
  let ids := scan_ids stdout in
  let tags := scan_tags stdout in
  {| file := path;
     classes := Js.sort classes;
     ids := Js.sort ids;
     tags := Js.sort tags;
     summary :=
       "Found " ++ Js.of_nat (List.length classes) ++ " CSS classes, "
       ++ Js.of_nat (List.length ids) ++ " IDs, and "
       ++ Js.of_nat (List.length tags) ++ " different HTML tags" |}.

(** [private async analyzeHtmlStructure(path: string)], lines 174-226. *)
Definition analyzeHtmlStructure (path : option string)
    : M W McpError Response :=
  match path with
  | None => throw path_required
  | Some p =>
      if negb (Js.truthy p) then throw path_required
      else
        try_catch
          (stdout <- exec (cat_command p) ;;
           ret {| content :=
                    [text_block
                       ("HTML Structure Analysis for: " ++ p ++ Js.nl ++ Js.nl
                        ++ stringify_structure env (analysis p stdout))];
                  isError := None |})
          (fun error =>
             throw {| code := InternalError;
                      mcp_message :=
                        "Failed to analyze file " ++ p ++ ": "
                        ++ error_toString error |})
  end.

(** [request.params.arguments?.path] *)
Definition path_argument (request : Request) : option string :=
  match arguments request with
  | None => None
  | Some obj => field "path" obj
  end.

(** The [CallToolRequestSchema] handler, lines 90-104. *)
Definition callTool (request : Request) : M W McpError Response :=
  if String.eqb (tool request) "get_file_content" then
    getFileContent (path_argument request)
  else if String.eqb (tool request) "analyze_html_structure" then
    analyzeHtmlStructure (path_argument request)
  else if String.eqb (tool request) "sync_repository" then
    syncRepository
  else
    throw {| code := MethodNotFound;
             mcp_message := "Unknown tool: " ++ tool request |}.

(** [async run()], lines 228-235: the initial sync, then the connection of
    the transport, which is [connect] here. *)
Definition run (connect : M W McpError unit) : M W McpError unit :=
  _ <- syncRepository ;;
  connect.

End Handlers.

(** The [ListToolsRequestSchema] handler, lines 49-88. *)
Definition listTools : list ToolDescriptor :=
  [ {| td_name := "get_file_content";
       td_description :=
         "Get the content of a specific file from the Rootz project";
       td_properties :=
         [ {| prop_name := "path";
              prop_type := "string";
              prop_description :=
                "Path to the file relative to project root (e.g., "
                ++ Js.dquote ++ "gsap-exp/header-test.html" ++ Js.dquote
                ++ ")" |} ];
       td_required := Some ["path"] |};
    {| td_name := "analyze_html_structure";
       td_description :=
         "Analyze HTML structure and extract CSS classes, IDs, and element hierarchy";
       td_properties :=
         [ {| prop_name := "path";
              prop_type := "string";
              prop_description := "Path to the HTML file to analyze" |} ];
       td_required := Some ["path"] |};
    {| td_name := "sync_repository";
       td_description :=
         "Sync the latest version of the Rootz project from GitHub";
       td_properties := [];
       td_required := None |} ].

End RootzMCPServer.

(** ** Variant 2: [class RootzMCPService] (simple-git, fs, path, cheerio) *)

Module RootzMCPService.

Definition localPath : string := "./rootz-sync".
Definition REPO_URL : string :=
  "https://github.com/kenjirou-ozi/rootz-project.git".
Definition MAX_FILE_SIZE : N := 45000.

(** The text appended to a truncated content. *)
Definition truncation_marker : string :=
  Js.nl ++ Js.nl ++ "--- [File truncated] ---".

Section Handlers.
Context {W : Type} (env : Env W).

(** [async initializeSync()], lines 278-287: wipe the directory (a failure
    of [fs.rm] is dropped by [.catch(() => {})]), clone, and log a failure. *)
Definition initializeSync : M W JsError unit :=
  try_catch
    (_ <- try_catch (perform (EvRm localPath) (fs_rm env localPath))
                    (fun _ => ret tt) ;;
     perform (EvClone REPO_URL localPath) (git_clone env REPO_URL localPath))
    (fun _ => ret tt).

(** [async pullLatest()], lines 289-297. *)
Definition pullLatest : M W JsError unit :=
  try_catch
    (perform (EvPull localPath "origin" "main")
       (git_pull env localPath "origin" "main"))
    (fun _ => ret tt).

(** [path.join(this.localPath, filePath)], which throws on [undefined]. *)
Definition join_path (filePath : option string) : M W JsError string :=
  match filePath with
  | None => throw ERR_INVALID_ARG_TYPE
  | Some p => ret (Path.join localPath p)
  end.

(** What [getFileContent] returns for a file content, lines 304-307. *)
Definition bounded (content : string) : string :=
  if (MAX_FILE_SIZE <? Js.length content)%N then
    Js.slice 0 MAX_FILE_SIZE content ++ truncation_marker
  else content.

(** [async getFileContent(filePath: string)], lines 299-308. *)
Definition getFileContent (filePath : option string) : M W JsError string :=
  _ <- pullLatest ;;
  fullPath <- join_path filePath ;;
  content <- perform (EvReadFile fullPath) (fs_readFile env fullPath) ;;
  ret (bounded content).

(** [(elem as any).tagName?.toLowerCase() || 'unknown'] *)
Definition tag_of (elem : Element) : string :=
  match tagName elem with
  | None => "unknown"
  | Some t => if Js.truthy (Js.toLowerCase t) then Js.toLowerCase t else "unknown"
  end.

(** The class tokens one element pushes: none when the attribute is absent
    or empty. *)
Definition class_tokens (elem : Element) : list string :=
  match attr_class elem with
  | Some c => if Js.truthy c then Js.split_ws c else []
  | None => []
  end.

Definition id_tokens (elem : Element) : list string :=
  match attr_id elem with
  | Some i => if Js.truthy i then [i] else []
  | None => []
  end.

Definition element_info (elem : Element) : ElementInfo :=
  {| el_tag := tag_of elem;
     el_class := attr_class elem;
     el_id := attr_id elem |}.

(** The analysis of the elements [$('*')] yields, lines 314-348. *)
Definition analyze_elements (elems : list Element) : HtmlAnalysis :=
  {| an_classes := Js.Set_from (flat_map class_tokens elems);
     an_ids := Js.Set_from (flat_map id_tokens elems);
     an_elements := map element_info elems |}.

(** [async analyzeHTML(filePath: string)], lines 310-349. *)
Definition analyzeHTML (filePath : option string) : M W JsError HtmlAnalysis :=
  content <- getFileContent filePath ;;
  ret (analyze_elements (cheerio_all env content)).

(** [args.file_path] and [args.html_file] with [args = params.arguments]:
    reading a property of [undefined] throws. *)
Definition argument (key : string) (request : Request)
    : M W JsError (option string) :=
  match arguments request with
  | None => throw (ERR_UNDEFINED_PROPERTY key)
  | Some obj => ret (field key obj)
  end.

(** The body of the [try] block of the handler, lines 388-411. *)
Definition dispatch (request : Request) : M W JsError Response :=
  if String.eqb (tool request) "get_file_content" then
    file_path <- argument "file_path" request ;;
    content <- getFileContent file_path ;;
    ret {| content :=
             [text_block
                ("File: " ++ template file_path ++ Js.nl ++ Js.nl ++ content)];
           isError := None |}
  else if String.eqb (tool request) "analyze_html_structure" then
    html_file <- argument "html_file" request ;;
    analysis <- analyzeHTML html_file ;;
    ret {| content :=
             [text_block
                ("HTML Analysis for: " ++ template html_file ++ Js.nl ++ Js.nl
                 ++ stringify_analysis env analysis)];
           isError := None |}
  else
    throw {| name := "Error"; message := "Unknown tool: " ++ tool request |}.

(** [`Error: ${error?.message || 'Unknown error'}`] *)
Definition error_text (error : JsError) : string :=
  "Error: "
  ++ (if Js.truthy (message error) then message error else "Unknown error").

(** The object the [catch] block returns, lines 413-416. *)
Definition error_response (error : JsError) : Response :=
  {| content := [text_block (error_text error)]; isError := Some true |}.

(** The [CallToolRequestSchema] handler, lines 386-418. *)
Definition callTool (request : Request) : M W JsError Response :=
  try_catch (dispatch request) (fun error => ret (error_response error)).

End Handlers.

(** The [ListToolsRequestSchema] handler, lines 359-384. *)
Definition listTools : list ToolDescriptor :=
  [ {| td_name := "get_file_content";
       td_description := "Get content of any file from Rootz project";
       td_properties :=
         [ {| prop_name := "file_path";
              prop_type := "string";
              prop_description := "Relative path to file" |} ];
       td_required := Some ["file_path"] |};
    {| td_name := "analyze_html_structure";
       td_description := "Analyze HTML file for classes and structure";
       td_properties :=
         [ {| prop_name := "html_file";
              prop_type := "string";
              prop_description := "Path to HTML file" |} ];
       td_required := Some ["html_file"] |} ].

End RootzMCPService.

(** ** A small concrete world, for running the handlers

    The remote repository is a set of files or is unreachable; the mirror
    directory is absent or holds files; [outside] holds the files of the
    machine that are not under the mirror directory.  Paths are the keys. *)

Module Mock.

Definition Tree : Type := list (string * string).

Record World : Type :=
  { remote : option Tree; mirror : option Tree; outside : Tree }.

Definition failure (m : string) : JsError := {| name := "Error"; message := m |}.

Definition already_exists : JsError :=
  failure "fatal: destination path already exists and is not an empty directory.".

Definition unreachable : JsError :=
  failure "fatal: unable to access the remote: Could not resolve host: github.com".

Definition no_repository : JsError :=
  failure "fatal: not a git repository (or any of the parent directories): .git".

Definition with_mirror (w : World) (m : option Tree) : World :=
  {| remote := remote w; mirror := m; outside := outside w |}.

(** The mirror is there and holds the files of the remote. *)
Definition synced (w : World) : Prop :=
  exists t, mirror w = Some t /\ remote w = Some t.

(** There is no mirror directory. *)
Definition absent (w : World) : Prop := mirror w = None.

(** [git clone]: refuses a directory that is there, needs the remote. *)
Definition clone (w : World) : World * (JsError + unit) :=
  match mirror w, remote w with
  | Some _, _ => (w, inl already_exists)
  | None, None => (w, inl unreachable)
  | None, Some t => (with_mirror w (Some t), inr tt)
  end.

(** [git pull]: needs the directory and the remote. *)
Definition pull (w : World) : World * (JsError + unit) :=
  match mirror w, remote w with
  | None, _ => (w, inl no_repository)
  | Some _, None => (w, inl unreachable)
  | Some _, Some t => (with_mirror w (Some t), inr tt)
  end.

Definition rm (w : World) : World * (JsError + unit) :=
  (with_mirror w None, inr tt).

(** Reads the file a normalized path names, the mirror being at [root]. *)
Definition read (root path : string) (w : World) : World * (JsError + string) :=
  if String.eqb path root then
    (w, inl (failure "EISDIR: illegal operation on a directory, read"))
  else
    let found :=
      if String.prefix (root ++ "/") path then
        match mirror w with
        | Some t =>
            field (String.substring (S (String.length root))
                     (String.length path) path) t
        | None => None
        end
      else field path (outside w) in
    match found with
    | Some c => (w, inr c)
    | None => (w, inl (failure ("ENOENT: no such file or directory, open '"
                                ++ path ++ "'")))
    end.

(** Drops the last character (the closing quote of the [cat] command). *)
Fixpoint chop (s : string) : string :=
  match s with
  | EmptyString => EmptyString
  | String _ EmptyString => EmptyString
  | String c s' => String c (chop s')
  end.

Definition as_string (r : World * (JsError + unit)) : World * (JsError + string) :=
  match r with
  | (w, inl e) => (w, inl e)
  | (w, inr _) => (w, inr EmptyString)
  end.

(** The shell, for the three commands of variant 1. *)
Definition shell (command : string) (w : World) : World * (JsError + string) :=
  if String.eqb command RootzMCPServer.clone_command then as_string (clone w)
  else if String.eqb command RootzMCPServer.pull_command then as_string (pull w)
  else if String.prefix ("cat " ++ Js.dquote) command then
    read "rootz-project"
      (Path.normalize
         (chop (String.substring 5 (String.length command) command))) w
  else (w, inl (failure ("Command failed: " ++ command))).

(** A stand-in for the markup parser: one element per opening tag. *)
Definition elements_of (content : string) : list Element :=
  map (fun t => {| tagName := Some t; attr_class := None; attr_id := None |})
    (Regex.all_matches Regex.tagRegex content).

Definition env : Env World :=
  {| execAsync := shell;
     fs_rm := fun _ => rm;
     git_clone := fun _ _ => clone;
     git_pull := fun _ _ _ => pull;
     fs_readFile := read "rootz-sync";
     cheerio_all := elements_of;
     stringify_structure := fun a => String.concat "," (tags a);
     stringify_analysis := fun a => String.concat "," (an_classes a) |}.

Definition page : string := "<DIV class='b a'><p id='x'>hi</p></DIV>".

Definition site : Tree := [("index.html", page)].

(** A machine on which the mirror is in place and up to date. *)
Definition synced_world : World :=
  {| remote := Some site;
     mirror := Some site;
     outside := [("secret.txt", "password")] |}.

(** A fresh machine, with the remote reachable. *)
Definition fresh_world : World :=
  {| remote := Some site; mirror := None; outside := [] |}.

(** A fresh machine that cannot reach the remote. *)
Definition offline_world : World :=
  {| remote := None; mirror := None; outside := [] |}.

(** A shell on which the first command fails for lack of network and the
    later ones succeed; the world counts the commands. *)
Definition flaky_shell (command : string) (n : nat) : nat * (JsError + string) :=
  match n with
  | O => (1, inl unreachable)
  | S _ => (S n, inr "Already up to date.")
  end.

Definition flaky_env : Env nat :=
  {| execAsync := flaky_shell;
     fs_rm := fun _ n => (n, inr tt);
     git_clone := fun _ _ n => (n, inr tt);
     git_pull := fun _ _ _ n => (n, inr tt);
     fs_readFile := fun _ n => (n, inr EmptyString);
     cheerio_all := fun _ => [];
     stringify_structure := fun _ => EmptyString;
     stringify_analysis := fun _ => EmptyString |}.

(** How git words the failure of a clone into a directory that is there. *)
Definition directory_already_present (e : JsError) : bool :=
  match String.index 0 "already exists" (message e) with
  | Some _ => true
  | None => false
  end.

(** A machine whose network comes and goes.  [held] is what the remote
    repository holds, which no operation changes; [network] tells, for each
    git command that contacts the remote in turn, whether the remote can be
    reached; [checkout] is the mirror directory, absent or with its files. *)
Record Line : Type :=
  { held : Tree; network : list bool; checkout : option Tree }.

(** [git clone] on such a machine: refused over a directory that is there;
    otherwise it contacts the remote once. *)
Definition line_clone (w : Line) : Line * (JsError + unit) :=
  match checkout w with
  | Some _ => (w, inl already_exists)
  | None =>
      match network w with
      | true :: later =>
          ({| held := held w; network := later; checkout := Some (held w) |},
           inr tt)
      | false :: later =>
          ({| held := held w; network := later; checkout := None |},
           inl unreachable)
      | [] => (w, inl unreachable)
      end
  end.

(** [git pull] on such a machine: needs the directory, then contacts the
    remote once. *)
Definition line_pull (w : Line) : Line * (JsError + unit) :=
  match checkout w with
  | None => (w, inl no_repository)
  | Some files =>
      match network w with
      | true :: later =>
          ({| held := held w; network := later; checkout := Some (held w) |},
           inr tt)
      | false :: later =>
          ({| held := held w; network := later; checkout := Some files |},
           inl unreachable)
      | [] => (w, inl unreachable)
      end
  end.

Definition line_rm (w : Line) : Line * (JsError + unit) :=
  ({| held := held w; network := network w; checkout := None |}, inr tt).

Definition line_result (r : Line * (JsError + unit))
    : Line * (JsError + string) :=
  match r with
  | (w, inl e) => (w, inl e)
  | (w, inr _) => (w, inr EmptyString)
  end.

Definition line_shell (command : string) (w : Line)
    : Line * (JsError + string) :=
  if String.eqb command RootzMCPServer.clone_command then
    line_result (line_clone w)
  else if String.eqb command RootzMCPServer.pull_command then
    line_result (line_pull w)
  else (w, inl (failure ("Command failed: " ++ command))).

Definition line_env : Env Line :=
  {| execAsync := line_shell;
     fs_rm := fun _ => line_rm;
     git_clone := fun _ _ => line_clone;
     git_pull := fun _ _ _ => line_pull;
     fs_readFile := fun path w => (w, inl (failure "ENOENT"));
     cheerio_all := elements_of;
     stringify_structure := fun a => String.concat "," (tags a);
     stringify_analysis := fun a => String.concat "," (an_classes a) |}.

(** The remote is reachable for the first git command and not for the
    second. *)
Definition dropping_line : Line :=
  {| held := site; network := [true; false]; checkout := None |}.

(** The remote is not reachable for the first git command and is for the
    second. *)
Definition recovering_line : Line :=
  {| held := site; network := [false; true]; checkout := None |}.

(** A string of [n] letters. *)
Fixpoint letters (n : nat) : string :=
  match n with
  | O => EmptyString
  | S n' => String "a"%char (letters n')
  end.

(** A page of more than 45000 characters whose last element lies beyond the
    limit, and a machine whose mirror holds it. *)
Definition big_page : string :=
  "<p class='early'>" ++ letters (N.to_nat 45000) ++ "</p><i id='late'></i>".

Definition big_world : World :=
  {| remote := None; mirror := Some [("big.html", big_page)]; outside := [] |}.

End Mock.

(** * Properties *)

(** ** Strings and lengths *)

Section StringFacts.

Lemma string_length_append (a b : string) :
  String.length (a ++ b) = String.length a + String.length b.
Proof. induction a as [|c a IH]; simpl; [reflexivity | now rewrite IH]. Qed.

Lemma substring0_length (n : nat) (s : string) :
  String.length (String.substring 0 n s) = Nat.min n (String.length s).
Proof.
  revert s; induction n as [|n IH]; intros [|c s]; simpl; try reflexivity.
  now rewrite IH.
Qed.

Lemma substring0_prefix (n : nat) (s : string) :
  String.prefix (String.substring 0 n s) s = true.
Proof.
  revert s; induction n as [|n IH]; intros [|c s]; simpl; try reflexivity.
  destruct (ascii_dec c c) as [_|ne]; [apply IH | now elim ne].
Qed.

Lemma substring0_append (n : nat) (s t : string) :
  n <= String.length s ->
  String.substring 0 n (s ++ t) = String.substring 0 n s.
Proof.
  revert s; induction n as [|n IH]; intros [|c s]; simpl; intros Hn;
    try reflexivity; try lia.
  - now destruct t.
  - f_equal. apply IH. lia.
Qed.

Lemma Js_length_append (a b : string) :
  Js.length (a ++ b) = (Js.length a + Js.length b)%N.
Proof. unfold Js.length. rewrite string_length_append. lia. Qed.

Lemma Js_slice0 (n : N) (s : string) :
  Js.slice 0 n s = String.substring 0 (N.to_nat n) s.
Proof. unfold Js.slice. now rewrite N.sub_0_r. Qed.

Lemma Js_substring0 (n : N) (s : string) :
  Js.substring 0 n s = String.substring 0 (N.to_nat n) s.
Proof.
  unfold Js.substring. now rewrite N.min_0_l, N.max_0_l, N.sub_0_r.
Qed.

Lemma Js_prefix_length (n : N) (s : string) :
  (n <= Js.length s)%N ->
  Js.length (String.substring 0 (N.to_nat n) s) = n.
Proof.
  unfold Js.length. intros Hn. rewrite substring0_length. lia.
Qed.

Lemma letters_length (n : nat) : String.length (Mock.letters n) = n.
Proof. induction n as [|n IH]; simpl; [reflexivity | now rewrite IH]. Qed.

Lemma Js_letters_length (n : N) : Js.length (Mock.letters (N.to_nat n)) = n.
Proof. unfold Js.length. rewrite letters_length. lia. Qed.

End StringFacts.

(** ** Running the handlers *)

Section Runs.
Context {W : Type} (env : Env W).

Lemma bind_run {E A B : Type} (c : M W E A) (k : A -> M W E B) (st : State W) :
  bind c k st =
  match c st with
  | (st', inr a) => k a st'
  | (st', inl e) => (st', inl e)
  end.
Proof. reflexivity. Qed.

Lemma perform_run {A : Type} (ev : Event) (op : W -> W * (JsError + A))
    (st : State W) :
  perform ev op st =
  ({| world := fst (op (world st)); trace := (trace st ++ [ev])%list |},
   snd (op (world st))).
Proof. unfold perform. now destruct (op (world st)). Qed.

(** [pullLatest] attempts exactly one pull and always completes. *)
Lemma pullLatest_run (st : State W) :
  RootzMCPService.pullLatest env st =
  ({| world :=
        fst (git_pull env RootzMCPService.localPath "origin" "main" (world st));
      trace :=
        (trace st ++ [EvPull RootzMCPService.localPath "origin" "main"])%list |},
   inr tt).
Proof.
  unfold RootzMCPService.pullLatest, try_catch. rewrite perform_run.
  destruct (git_pull env _ _ _ (world st)) as [w [e|[]]]; reflexivity.
Qed.

(** [getFileContent] of variant 2 on a string: pull, join, read, bound. *)
Lemma service_getFileContent_run (p : string) (st : State W) :
  RootzMCPService.getFileContent env (Some p) st =
  let st1 := fst (RootzMCPService.pullLatest env st) in
  let fullPath := Path.join RootzMCPService.localPath p in
  let r := fs_readFile env fullPath (world st1) in
  ({| world := fst r; trace := (trace st1 ++ [EvReadFile fullPath])%list |},
   match snd r with
   | inl e => inl e
   | inr content => inr (RootzMCPService.bounded content)
   end).
Proof.
  unfold RootzMCPService.getFileContent. rewrite bind_run, pullLatest_run.
  cbn [fst RootzMCPService.join_path]. rewrite bind_run. unfold ret at 1.
  rewrite bind_run, perform_run.
  cbv zeta. destruct (fs_readFile env _ _) as [w [e|c]]; reflexivity.
Qed.

(** [getFileContent] of variant 1 on a non-empty path: one [cat]. *)
Lemma server_getFileContent_run (p : string) (st : State W) :
  Js.truthy p = true ->
  RootzMCPServer.getFileContent env (Some p) st =
  let r := execAsync env (RootzMCPServer.cat_command p) (world st) in
  ({| world := fst r;
      trace := (trace st ++ [EvExec (RootzMCPServer.cat_command p)])%list |},
   match snd r with
   | inl e =>
       inl {| code := InternalError;
              mcp_message :=
                "Failed to read file " ++ p ++ ": " ++ error_toString e |}
   | inr stdout => inr (RootzMCPServer.file_response p stdout)
   end).
Proof.
  intros Hp. unfold RootzMCPServer.getFileContent. rewrite Hp. cbn [negb].
  unfold try_catch. rewrite bind_run. unfold RootzMCPServer.exec.
  rewrite perform_run. cbv zeta.
  destruct (execAsync env _ _) as [w [e|c]]; reflexivity.
Qed.

End Runs.

(** ** The size limit (claims C1 and C10) *)

Section SizeLimit.

Lemma marker_length : Js.length RootzMCPService.truncation_marker = 26%N.
Proof. reflexivity. Qed.

Lemma bounded_long (content : string) :
  (RootzMCPService.MAX_FILE_SIZE < Js.length content)%N ->
  RootzMCPService.bounded content =
  Js.slice 0 RootzMCPService.MAX_FILE_SIZE content
  ++ RootzMCPService.truncation_marker.
Proof.
  intros HL. unfold RootzMCPService.bounded.
  now apply N.ltb_lt in HL; rewrite HL.
Qed.

Lemma bounded_short (content : string) :
  (Js.length content <= RootzMCPService.MAX_FILE_SIZE)%N ->
  RootzMCPService.bounded content = content.
Proof.
  intros HL. unfold RootzMCPService.bounded.
  destruct (N.ltb_spec RootzMCPService.MAX_FILE_SIZE (Js.length content));
    [lia | reflexivity].
Qed.

Lemma slice_limit_length (n : N) (content : string) :
  (n < Js.length content)%N -> Js.length (Js.slice 0 n content) = n.
Proof. intros HL. rewrite Js_slice0. apply Js_prefix_length. lia. Qed.

Lemma bounded_length (content : string) :
  (Js.length (RootzMCPService.bounded content)
   <= RootzMCPService.MAX_FILE_SIZE + 26)%N.
Proof.
  destruct (N.lt_ge_cases RootzMCPService.MAX_FILE_SIZE (Js.length content))
    as [HL|HL].
  - rewrite (bounded_long _ HL), Js_length_append, marker_length.
    rewrite (slice_limit_length _ _ HL). lia.
  - rewrite (bounded_short _ HL). lia.
Qed.

(** Whatever follows the limit in a file does not reach the caller. *)
Lemma bounded_ignores_tail (content extra : string) :
  (RootzMCPService.MAX_FILE_SIZE < Js.length content)%N ->
  RootzMCPService.bounded (content ++ extra) =
  RootzMCPService.bounded content.
Proof.
  intros HL. rewrite (bounded_long content HL).
  rewrite bounded_long by (rewrite Js_length_append; lia).
  f_equal. rewrite !Js_slice0. apply substring0_append.
  unfold Js.length in HL. lia.
Qed.

Lemma file_response_long (p stdout : string) :
  (RootzMCPServer.SIZE_LIMIT < Js.length stdout)%N ->
  RootzMCPServer.file_response p stdout =
  {| content :=
       [text_block
          (RootzMCPServer.truncated_text
             (Js.substring 0 RootzMCPServer.SIZE_LIMIT stdout))];
     isError := None |}.
Proof.
  intros HL. unfold RootzMCPServer.file_response.
  now apply N.ltb_lt in HL; rewrite HL.
Qed.

Lemma file_response_short (p stdout : string) :
  (Js.length stdout <= RootzMCPServer.SIZE_LIMIT)%N ->
  RootzMCPServer.file_response p stdout =
  {| content := [text_block (RootzMCPServer.file_text p stdout)];
     isError := None |}.
Proof.
  intros HL. unfold RootzMCPServer.file_response.
  destruct (N.ltb_spec RootzMCPServer.SIZE_LIMIT (Js.length stdout));
    [lia | reflexivity].
Qed.

End SizeLimit.

(** C1 (as amended).  For every file read through the file-content
    operation, with raw content of length L: when L exceeds 45000 the
    returned content is the first 45000 characters of the file followed by a
    fixed marker text (variant 2: two line feeds and [--- [File truncated]
    ---], 26 characters, so the returned length is 45026; variant 1: the
    prefix is wrapped between [File content (truncated to 45KB):] and
    [[Content truncated due to size limit]]); otherwise the returned content
    is the original (variant 1: after the header [File: path]).  Neither
    variant returns a truncation flag: the marker text is the only signal.
    The length returned by variant 2 never exceeds 45000 + 26. *)
Theorem C1_truncation_appends_marker :
  forall (W : Type) (env : Env W) (st : State W) (p content : string)
         (w1 w2 : W),
    Js.truthy p = true ->
    execAsync env (RootzMCPServer.cat_command p) (world st)
      = (w1, inr content) ->
    fs_readFile env (Path.join RootzMCPService.localPath p)
      (world (fst (RootzMCPService.pullLatest env st)))
      = (w2, inr content) ->
    let L := Js.length content in
    (exists r : string,
        snd (RootzMCPService.getFileContent env (Some p) st) = inr r
        /\ ((45000 < L)%N ->
            r = Js.slice 0 45000 content ++ RootzMCPService.truncation_marker
            /\ Js.length (Js.slice 0 45000 content) = 45000%N
            /\ String.prefix (Js.slice 0 45000 content) content = true
            /\ Js.length r = 45026%N)
        /\ ((L <= 45000)%N -> r = content)
        /\ (Js.length r <= 45026)%N)
    /\
    (exists t : string,
        snd (RootzMCPServer.getFileContent env (Some p) st)
          = inr {| content := [text_block t]; isError := None |}
        /\ ((45000 < L)%N ->
            t = RootzMCPServer.truncated_text (Js.substring 0 45000 content)
            /\ Js.length (Js.substring 0 45000 content) = 45000%N
            /\ String.prefix (Js.substring 0 45000 content) content = true)
        /\ ((L <= 45000)%N -> t = RootzMCPServer.file_text p content)).
Proof.
  intros W env st p content w1 w2 Hp Hcat Hread L. split.
  - exists (RootzMCPService.bounded content). split.
    + rewrite service_getFileContent_run. cbv zeta. cbn [snd].
      now rewrite Hread.
    + change 45000%N with RootzMCPService.MAX_FILE_SIZE.
      split; [intros HL; split; [|split; [|split]] | split].
      * now apply bounded_long.
      * now apply slice_limit_length.
      * rewrite Js_slice0. apply substring0_prefix.
      * rewrite (bounded_long _ HL), Js_length_append, marker_length.
        rewrite (slice_limit_length _ _ HL). reflexivity.
      * apply bounded_short.
      * apply bounded_length.
  - destruct (N.lt_ge_cases 45000 L) as [HL|HL].
    + exists (RootzMCPServer.truncated_text (Js.substring 0 45000 content)).
      split.
      * rewrite (server_getFileContent_run env p st Hp). cbv zeta. cbn [snd].
        rewrite Hcat. cbn [snd]. now rewrite file_response_long.
      * split; [intros _ | intros HL'; lia].
        rewrite Js_substring0. split; [reflexivity | split].
        -- apply Js_prefix_length. fold L. lia.
        -- apply substring0_prefix.
    + exists (RootzMCPServer.file_text p content). split.
      * rewrite (server_getFileContent_run env p st Hp). cbv zeta. cbn [snd].
        rewrite Hcat. cbn [snd]. now rewrite file_response_short.
      * split; [intros HL'; lia | reflexivity].
Qed.

(** C1, witness: the page of the concrete world, read by both variants. *)
Lemma C1_truncation_witness :
  (exists r : string,
      snd (RootzMCPService.getFileContent Mock.env (Some "index.html")
             (init Mock.synced_world)) = inr r
      /\ (Js.length r <= 45026)%N)
  /\
  (exists t : string,
      snd (RootzMCPServer.getFileContent Mock.env (Some "index.html")
             (init Mock.synced_world))
        = inr {| content := [text_block t]; isError := None |}).
Proof.
  destruct (C1_truncation_appends_marker Mock.World Mock.env
              (init Mock.synced_world) "index.html" Mock.page
              Mock.synced_world Mock.synced_world
              eq_refl eq_refl eq_refl)
    as [[r [Hr [_ [_ Hlen]]]] [t [Ht _]]].
  split; [exists r | exists t]; auto.
Defined.

(** C1, counterexample: a file of 45001 letters.  What variant 2 returns is
    longer than 45000 characters and is not the 45000-character prefix. *)
Lemma C1_counterexample :
  let content := Mock.letters (N.to_nat 45001) in
  (45000 < Js.length content)%N
  /\ (45000 < Js.length (RootzMCPService.bounded content))%N
  /\ RootzMCPService.bounded content <> Js.slice 0 45000 content.
Proof.
  cbv zeta.
  assert (HL : (RootzMCPService.MAX_FILE_SIZE
                < Js.length (Mock.letters (N.to_nat 45001)))%N)
    by (rewrite Js_letters_length; reflexivity).
  assert (Hlen : Js.length (RootzMCPService.bounded
                              (Mock.letters (N.to_nat 45001))) = 45026%N).
  { rewrite (bounded_long _ HL), Js_length_append, marker_length.
    rewrite (slice_limit_length _ _ HL). reflexivity. }
  split; [exact HL | split].
  - rewrite Hlen. reflexivity.
  - intros Heq. apply (f_equal Js.length) in Heq. rewrite Hlen in Heq.
    change 45000%N with RootzMCPService.MAX_FILE_SIZE in Heq.
    rewrite (slice_limit_length _ _ HL) in Heq. discriminate Heq.
Qed.

(** ** The scanning loops terminate *)

Section RegexFacts.

Lemma star_loop_shrinks (p : ascii -> bool) k (g : bool) :
  Regex.shrinks k -> Regex.shrinks (Regex.star_loop p k g).
Proof.
  intros Hk cap s. revert cap.
  induction s as [|x s IH]; intros cap c rest; simpl.
  - apply Hk.
  - destruct (p x).
    + destruct (Regex.star_loop p k g (Regex.push g x cap) s) as [r|] eqn:E.
      * intros [= ->]. apply IH in E. lia.
      * intros H. apply Hk in H. exact H.
    + intros H. apply Hk in H. exact H.
Qed.

Lemma matchHere_shrinks (pat : Regex.pattern) (g : bool) :
  Regex.shrinks (Regex.matchHere pat g).
Proof.
  revert g. induction pat as [|a pat IH]; intros g cap s c rest.
  - simpl. intros [= _ ->]. lia.
  - destruct a as [ch|p|p|p| |]; simpl.
    + destruct s as [|x s]; [discriminate|].
      destruct (Ascii.eqb x ch); [|discriminate].
      intros H. apply IH in H. simpl. lia.
    + destruct s as [|x s]; [discriminate|].
      destruct (p x); [|discriminate].
      intros H. apply IH in H. simpl. lia.
    + destruct s as [|x s]; [discriminate|].
      destruct (p x); [|discriminate].
      intros H. apply (star_loop_shrinks p _ g (IH g)) in H. simpl. lia.
    + apply (star_loop_shrinks p _ g (IH g)).
    + apply IH.
    + apply IH.
Qed.

(** A pattern that starts with a literal consumes at least one character. *)
Lemma matchHere_consumes (ch : ascii) (pat : Regex.pattern) cap s c rest :
  Regex.matchHere (Regex.Lit ch :: pat) false cap s = Some (c, rest) ->
  String.length rest < String.length s.
Proof.
  simpl. destruct s as [|x s]; [discriminate|].
  destruct (Ascii.eqb x ch); [|discriminate].
  intros H. apply matchHere_shrinks in H. simpl. lia.
Qed.

Lemma exec_consumes (ch : ascii) (pat : Regex.pattern) s c rest :
  Regex.exec (Regex.Lit ch :: pat) s = Some (c, rest) ->
  String.length rest < String.length s.
Proof.
  induction s as [|x s IH]; cbn [Regex.exec].
  - destruct (Regex.matchHere _ false [] EmptyString) as [r|] eqn:E;
      [|discriminate].
    intros [= ->]. now apply matchHere_consumes in E.
  - destruct (Regex.matchHere _ false [] (String x s)) as [r|] eqn:E.
    + intros [= ->]. now apply matchHere_consumes in E.
    + intros H. apply IH in H. simpl. lia.
Qed.

(** With one unit of fuel more than the input has characters, the loop of a
    pattern that starts with a literal ends because [exec] answered [null]. *)
Lemma exec_loop_enough (ch : ascii) (pat : Regex.pattern) (fuel : nat) s :
  String.length s < fuel ->
  exists caps, Regex.exec_loop fuel (Regex.Lit ch :: pat) s = Some caps.
Proof.
  revert s. induction fuel as [|fuel IH]; intros s Hs; [lia|].
  cbn [Regex.exec_loop].
  destruct (Regex.exec (Regex.Lit ch :: pat) s) as [[c rest]|] eqn:E.
  - apply exec_consumes in E.
    destruct (IH rest) as [caps ->]; [lia|]. now exists (c :: caps).
  - now exists [].
Qed.

Lemma classRegex_terminates (s : string) :
  exists caps,
    Regex.exec_loop (S (String.length s)) Regex.classRegex s = Some caps.
Proof. apply exec_loop_enough. lia. Qed.

Lemma idRegex_terminates (s : string) :
  exists caps,
    Regex.exec_loop (S (String.length s)) Regex.idRegex s = Some caps.
Proof. apply exec_loop_enough. lia. Qed.

Lemma tagRegex_terminates (s : string) :
  exists caps,
    Regex.exec_loop (S (String.length s)) Regex.tagRegex s = Some caps.
Proof. apply exec_loop_enough. lia. Qed.

End RegexFacts.

(** ** Sets and sorting (claims C2 and C9) *)

Section Collections.

Lemma existsb_eqb_false (x : string) (seen : list string) :
  existsb (String.eqb x) seen = false -> ~ In x seen.
Proof.
  intros H Hin.
  assert (existsb (String.eqb x) seen = true) as Ht
    by (apply existsb_exists; exists x; split; [exact Hin | apply String.eqb_refl]).
  congruence.
Qed.

Lemma existsb_eqb_true (x : string) (seen : list string) :
  existsb (String.eqb x) seen = true -> In x seen.
Proof.
  intros H. apply existsb_exists in H as [y [Hin Heq]].
  apply String.eqb_eq in Heq. now subst.
Qed.

Lemma add_all_NoDup (xs seen : list string) :
  NoDup seen -> NoDup (Js.add_all seen xs).
Proof.
  revert seen. induction xs as [|x xs IH]; intros seen Hs; simpl; [exact Hs|].
  destruct (existsb (String.eqb x) seen) eqn:E.
  - now apply IH.
  - apply IH. constructor; [now apply existsb_eqb_false | exact Hs].
Qed.

Lemma add_all_In (xs seen : list string) (y : string) :
  In y (Js.add_all seen xs) <-> In y seen \/ In y xs.
Proof.
  revert seen. induction xs as [|x xs IH]; intros seen; simpl.
  - tauto.
  - destruct (existsb (String.eqb x) seen) eqn:E; rewrite IH; simpl.
    + apply existsb_eqb_true in E. split; [tauto|].
      intros [H|[<-|H]]; tauto.
    + tauto.
Qed.

(** A [Set] holds each member once. *)
Lemma Set_from_NoDup (xs : list string) : NoDup (Js.Set_from xs).
Proof. apply NoDup_rev, add_all_NoDup. constructor. Qed.

(** A [Set] holds what was added, and nothing else. *)
Lemma Set_from_In (xs : list string) (y : string) :
  In y (Js.Set_from xs) <-> In y xs.
Proof.
  unfold Js.Set_from. rewrite <- in_rev, add_all_In. simpl. tauto.
Qed.

Lemma ascii_compare_lt_trans (a b c : ascii) :
  Ascii.compare a b = Lt -> Ascii.compare b c = Lt -> Ascii.compare a c = Lt.
Proof.
  unfold Ascii.compare. rewrite !N.compare_lt_iff. apply N.lt_trans.
Qed.

Lemma ascii_compare_refl (a : ascii) : Ascii.compare a a = Eq.
Proof. unfold Ascii.compare. apply N.compare_refl. Qed.

Lemma string_compare_lt_trans (a b c : string) :
  String.compare a b = Lt -> String.compare b c = Lt -> String.compare a c = Lt.
Proof.
  revert b c. induction a as [|x a IH]; intros [|y b] [|z c]; simpl;
    try discriminate; try reflexivity.
  destruct (Ascii.compare x y) eqn:Exy; try discriminate;
    destruct (Ascii.compare y z) eqn:Eyz; try discriminate; intros Hab Hbc.
  - apply Ascii.compare_eq_iff in Exy, Eyz. subst.
    rewrite ascii_compare_refl. eauto.
  - apply Ascii.compare_eq_iff in Exy. subst. now rewrite Eyz.
  - apply Ascii.compare_eq_iff in Eyz. subst. now rewrite Exy.
  - now rewrite (ascii_compare_lt_trans _ _ _ Exy Eyz).
Qed.

Lemma filter_filter (f g : string -> bool) (l : list string) :
  filter f (filter g l) = filter (fun y => g y && f y) l.
Proof.
  induction l as [|y l IH]; simpl; [reflexivity|].
  destruct (g y); simpl; [destruct (f y)|]; now rewrite IH.
Qed.

(** The members of a set that starts from [seen], in insertion order: those
    of [seen], then the first occurrences in [xs] of what [seen] lacks. *)
Lemma add_all_order (xs seen : list string) :
  rev (Js.add_all seen xs)
  = (rev seen
     ++ filter (fun y => negb (existsb (String.eqb y) seen))
          (Js.first_occurrences xs))%list.
Proof.
  revert seen. induction xs as [|x xs IH]; intros seen;
    cbn [Js.add_all Js.first_occurrences filter].
  - now rewrite app_nil_r.
  - destruct (existsb (String.eqb x) seen) eqn:E; cbn [negb].
    + rewrite IH, filter_filter. f_equal. apply filter_ext_in.
      intros y _. destruct (String.eqb_spec y x) as [->|]; [|reflexivity].
      now rewrite E.
    + rewrite IH, filter_filter. cbn [rev]. rewrite <- app_assoc. cbn [app].
      do 2 f_equal. apply filter_ext_in. intros y _. cbn [existsb].
      now rewrite negb_orb.
Qed.

(** Iterating a [Set] yields its members in the order of their first
    insertion. *)
Lemma Set_from_order (xs : list string) :
  Js.Set_from xs = Js.first_occurrences xs.
Proof.
  unfold Js.Set_from. rewrite add_all_order. cbn [rev app existsb negb].
  induction (Js.first_occurrences xs) as [|y l IH]; [reflexivity|].
  cbn [filter]. now rewrite IH.
Qed.

End Collections.

Section Sorting.

Lemma string_compare_refl (s : string) : String.compare s s = Eq.
Proof.
  induction s as [|c s IH]; simpl; [reflexivity|].
  now rewrite ascii_compare_refl.
Qed.

Lemma string_leb_trans : Transitive (fun a b => is_true (String.leb a b)).
Proof.
  intros a b c. unfold is_true, String.leb.
  destruct (String.compare a b) eqn:Eab; try discriminate; intros _;
    destruct (String.compare b c) eqn:Ebc; try discriminate; intros _.
  - apply String.compare_eq_iff in Eab, Ebc. subst.
    now rewrite string_compare_refl.
  - apply String.compare_eq_iff in Eab. subst. now rewrite Ebc.
  - apply String.compare_eq_iff in Ebc. subst. now rewrite Eab.
  - now rewrite (string_compare_lt_trans _ _ _ Eab Ebc).
Qed.

Lemma leb_neq_ltb (a b : string) :
  String.leb a b = true -> a <> b -> String.ltb a b = true.
Proof.
  unfold String.leb, String.ltb.
  destruct (String.compare a b) eqn:E; try discriminate; [|reflexivity].
  intros _ Hne. apply String.compare_eq_iff in E. contradiction.
Qed.

Lemma sorted_NoDup_ascending (xs : list string) :
  StronglySorted (fun a b => is_true (String.leb a b)) xs ->
  NoDup xs -> Js.ascending xs.
Proof.
  induction 1 as [|a l Hl IH Hall]; intros Hnd; constructor.
  - apply IH. now inversion Hnd.
  - inversion Hnd as [|? ? Hnotin _]; subst.
    rewrite Forall_forall in *. intros b Hb.
    apply leb_neq_ltb; [now apply Hall | intros ->; contradiction].
Qed.

Lemma sort_NoDup (xs : list string) : NoDup xs -> NoDup (Js.sort xs).
Proof. apply Permutation_NoDup, Js.CodeUnitSort.Permuted_sort. Qed.

Lemma sort_In (xs : list string) (y : string) : In y (Js.sort xs) <-> In y xs.
Proof.
  split; apply Permutation_in;
    [apply Permutation_sym|]; apply Js.CodeUnitSort.Permuted_sort.
Qed.

(** [Array.from(set).sort()] has no duplicate and is strictly ascending. *)
Lemma sorted_set (xs : list string) :
  NoDup (Js.sort (Js.Set_from xs)) /\ Js.ascending (Js.sort (Js.Set_from xs)).
Proof.
  assert (Hnd : NoDup (Js.sort (Js.Set_from xs)))
    by apply sort_NoDup, Set_from_NoDup.
  split; [exact Hnd|].
  apply sorted_NoDup_ascending; [|exact Hnd].
  apply Js.CodeUnitSort.StronglySorted_sort, string_leb_trans.
Qed.

Lemma lower_char_not_upper (c : ascii) : Js.is_upper (Js.lower_char c) = false.
Proof. destruct c as [[] [] [] [] [] [] [] []]; reflexivity. Qed.

Lemma toLowerCase_is_lower (s : string) : Js.is_lower (Js.toLowerCase s) = true.
Proof.
  induction s as [|c s IH]; simpl; [reflexivity|].
  now rewrite lower_char_not_upper, IH.
Qed.

Lemma tag_of_is_lower (elem : Element) :
  Js.is_lower (RootzMCPService.tag_of elem) = true.
Proof.
  unfold RootzMCPService.tag_of. destruct (tagName elem) as [t|]; [|reflexivity].
  destruct (Js.truthy (Js.toLowerCase t)); [|reflexivity].
  apply toLowerCase_is_lower.
Qed.

End Sorting.

(** The example of the specification, on the scanning variant. *)
Example analysis_of_example :
  RootzMCPServer.analysis "example.html"
    "<div class='a b' id='x'><span class='b'></span></div>"
  = {| file := "example.html";
       classes := ["a"; "b"];
       ids := ["x"];
       tags := ["div"; "span"];
       summary := "Found 2 CSS classes, 1 IDs, and 2 different HTML tags" |}.
Proof. reflexivity. Qed.

(** The same document as the parser of the other variant presents it. *)
Example analyze_elements_of_example :
  RootzMCPService.analyze_elements
    [{| tagName := Some "div"; attr_class := Some "a b"; attr_id := Some "x" |};
     {| tagName := Some "span"; attr_class := Some "b"; attr_id := None |}]
  = {| an_classes := ["a"; "b"];
       an_ids := ["x"];
       an_elements :=
         [{| el_tag := "div"; el_class := Some "a b"; el_id := Some "x" |};
          {| el_tag := "span"; el_class := Some "b"; el_id := None |}] |}.
Proof. reflexivity. Qed.

(** Members of a set are iterated in the order of their first insertion. *)
Example first_occurrences_of_example :
  Js.first_occurrences ["b"; "a"; "b"; "c"; "a"] = ["b"; "a"; "c"]
  /\ Js.Set_from ["b"; "a"; "b"; "c"; "a"] = ["b"; "a"; "c"].
Proof. split; reflexivity. Qed.

(** C2 (as amended).  For every markup text given to the scanning variant
    ([analyzeHtmlStructure]), each of [classes], [ids] and [tags] has no
    duplicate entry and is in strictly ascending order of code units.  For
    every document given to the parsing variant ([analyzeHTML]), [classes]
    and [ids] have no duplicate entry and hold exactly the tokens found, in
    the order of their first occurrence in the document: each list is the
    sequence of tokens, taken element by element in document order, with
    every later occurrence of a token struck out.  They are not sorted, and
    that variant's result has no [tags] collection. *)
Theorem C2_collections_deduplicated :
  forall (path stdout : string) (elems : list Element),
    let a := RootzMCPServer.analysis path stdout in
    let b := RootzMCPService.analyze_elements elems in
    (NoDup (classes a) /\ Js.ascending (classes a))
    /\ (NoDup (ids a) /\ Js.ascending (ids a))
    /\ (NoDup (tags a) /\ Js.ascending (tags a))
    /\ NoDup (an_classes b)
    /\ NoDup (an_ids b)
    /\ (forall c : string,
          In c (an_classes b)
          <-> In c (flat_map RootzMCPService.class_tokens elems))
    /\ (forall i : string,
          In i (an_ids b) <-> In i (flat_map RootzMCPService.id_tokens elems))
    /\ an_classes b
       = Js.first_occurrences (flat_map RootzMCPService.class_tokens elems)
    /\ an_ids b
       = Js.first_occurrences (flat_map RootzMCPService.id_tokens elems).
Proof.
  intros path stdout elems a b. subst a b. cbn [classes ids tags
    RootzMCPServer.analysis RootzMCPService.analyze_elements an_classes an_ids].
  split; [apply sorted_set|]. split; [apply sorted_set|].
  split; [apply sorted_set|]. split; [apply Set_from_NoDup|].
  split; [apply Set_from_NoDup|].
  split; [intros x; apply Set_from_In|].
  split; [intros x; apply Set_from_In|].
  split; apply Set_from_order.
Qed.

(** C2, counterexample: one element whose class attribute is [b a].  The
    parsing variant returns the classes in the order found, which is not
    ascending. *)
Lemma C2_counterexample :
  an_classes
    (RootzMCPService.analyze_elements
       [{| tagName := Some "div"; attr_class := Some "b a"; attr_id := None |}])
  = ["b"; "a"]
  /\ ~ Js.ascending ["b"; "a"].
Proof.
  split; [reflexivity|].
  intros H. inversion H as [|? ? _ Hall]; subst.
  inversion Hall as [|? ? Hba _]; subst. discriminate Hba.
Qed.

(** C9 (as amended).  In the parsing variant every entry of [elements] has
    its tag in lower case: it is the lower-cased [tagName] of the element, or
    [unknown] when there is none.  In the scanning variant the tag set holds
    the names exactly as the pattern captured them from the markup, with no
    change of case. *)
Theorem C9_tag_case :
  forall (path stdout : string) (elems : list Element),
    Forall (fun e => Js.is_lower (el_tag e) = true)
      (an_elements (RootzMCPService.analyze_elements elems))
    /\ map el_tag (an_elements (RootzMCPService.analyze_elements elems))
       = map RootzMCPService.tag_of elems
    /\ (forall t : string,
          In t (tags (RootzMCPServer.analysis path stdout))
          <-> In t (Regex.all_matches Regex.tagRegex stdout)).
Proof.
  intros path stdout elems. cbn [RootzMCPService.analyze_elements an_elements
    RootzMCPServer.analysis tags]. split; [|split].
  - apply Forall_forall. intros e He. apply in_map_iff in He as [x [<- _]].
    apply tag_of_is_lower.
  - rewrite map_map. reflexivity.
  - intros t. unfold RootzMCPServer.scan_tags.
    now rewrite sort_In, Set_from_In.
Qed.

(** C9, counterexample: an element written in capitals.  The scanning
    variant reports the tag as written. *)
Lemma C9_counterexample :
  tags (RootzMCPServer.analysis "index.html" "<DIV></DIV>") = ["DIV"]
  /\ Js.is_lower "DIV" = false.
Proof. split; reflexivity. Qed.

(** ** Running the sync operations and the dispatchers *)

Section SyncRuns.
Context {W : Type} (env : Env W).

(** [syncRepository]: one clone; when it fails, one pull; the error of a
    failed pull is rethrown as an [McpError]. *)
Lemma syncRepository_run (st : State W) :
  RootzMCPServer.syncRepository env st =
  let r1 := execAsync env RootzMCPServer.clone_command (world st) in
  let t1 := (trace st ++ [EvExec RootzMCPServer.clone_command])%list in
  match snd r1 with
  | inr _ => ({| world := fst r1; trace := t1 |}, inr RootzMCPServer.sync_ok)
  | inl _ =>
      let r2 := execAsync env RootzMCPServer.pull_command (fst r1) in
      ({| world := fst r2;
          trace := (t1 ++ [EvExec RootzMCPServer.pull_command])%list |},
       match snd r2 with
       | inr _ => inr RootzMCPServer.sync_ok
       | inl e =>
           inl {| code := InternalError;
                  mcp_message :=
                    "Failed to sync repository: " ++ error_toString e |}
       end)
  end.
Proof.
  unfold RootzMCPServer.syncRepository, try_catch at 1.
  rewrite bind_run. unfold try_catch at 1. rewrite bind_run.
  unfold RootzMCPServer.exec at 1. rewrite perform_run. cbv zeta.
  destruct (execAsync env RootzMCPServer.clone_command (world st))
    as [w1 [e1|out1]]; cbn [fst snd]; [|reflexivity].
  rewrite bind_run. unfold RootzMCPServer.exec. rewrite perform_run.
  cbn [world trace].
  destruct (execAsync env RootzMCPServer.pull_command w1) as [w2 [e2|out2]];
    reflexivity.
Qed.

(** [initializeSync]: one removal, one clone, and it always completes. *)
Lemma initializeSync_run (st : State W) :
  RootzMCPService.initializeSync env st =
  let w1 := fst (fs_rm env RootzMCPService.localPath (world st)) in
  ({| world :=
        fst (git_clone env RootzMCPService.REPO_URL RootzMCPService.localPath w1);
      trace :=
        ((trace st ++ [EvRm RootzMCPService.localPath])
         ++ [EvClone RootzMCPService.REPO_URL RootzMCPService.localPath])%list |},
   inr tt).
Proof.
  unfold RootzMCPService.initializeSync, try_catch at 1.
  rewrite bind_run. unfold try_catch. rewrite perform_run.
  destruct (fs_rm env RootzMCPService.localPath (world st)) as [w1 [e|[]]];
    cbn [fst snd]; unfold ret; rewrite perform_run; cbn [world trace];
    destruct (git_clone env _ _ w1) as [w2 [e2|[]]]; reflexivity.
Qed.

(** [getFileContent] of variant 2 without a path: the pull, then the
    [TypeError] of [path.join]; nothing is read. *)
Lemma service_getFileContent_undefined (st : State W) :
  RootzMCPService.getFileContent env None st =
  (fst (RootzMCPService.pullLatest env st), inl ERR_INVALID_ARG_TYPE).
Proof.
  unfold RootzMCPService.getFileContent. rewrite bind_run, pullLatest_run.
  reflexivity.
Qed.

(** [callTool] of variant 2 in terms of its [try] block. *)
Lemma service_callTool_run (request : Request) (st : State W) :
  RootzMCPService.callTool env request st =
  match RootzMCPService.dispatch env request st with
  | (st', inr response) => (st', inr response)
  | (st', inl error) => (st', inr (RootzMCPService.error_response error))
  end.
Proof. reflexivity. Qed.

End SyncRuns.

(** ** Failures of the sync operation (claims C5 and C7) *)

(** C7 (as amended).  In the shell variant, [syncRepository] fails if and
    only if the clone fails and the pull that follows it fails too; every
    such failure reaches the caller as an [McpError] with code
    [InternalError] whose message is [Failed to sync repository: ] followed
    by the text of the pull's error, and every success is the fixed
    confirmation.  In the other variant, [initializeSync] and [pullLatest]
    catch and log the failure of their clone or pull and always complete
    normally. *)
Theorem C7_sync_failure :
  forall (W : Type) (env : Env W) (st : State W),
    let r1 := execAsync env RootzMCPServer.clone_command (world st) in
    let r2 := execAsync env RootzMCPServer.pull_command (fst r1) in
    let out := snd (RootzMCPServer.syncRepository env st) in
    ((exists e, out = inl e)
     <-> (exists e1, snd r1 = inl e1) /\ (exists e2, snd r2 = inl e2))
    /\ (forall e, out = inl e ->
          code e = InternalError
          /\ exists e2, snd r2 = inl e2
             /\ mcp_message e
                = "Failed to sync repository: " ++ error_toString e2)
    /\ (forall r, out = inr r -> r = RootzMCPServer.sync_ok)
    /\ snd (RootzMCPService.initializeSync env st) = inr tt
    /\ snd (RootzMCPService.pullLatest env st) = inr tt.
Proof.
  intros W env st r1 r2 out. subst out.
  rewrite syncRepository_run, initializeSync_run, pullLatest_run.
  cbv zeta. fold r1. destruct (snd r1) as [e1|out1] eqn:E1; cbn [snd].
  - fold r2. destruct (snd r2) as [e2|out2] eqn:E2.
    + split; [split; eauto|]. split.
      * intros e [= <-]. split; [reflexivity|]. now exists e2.
      * split; [discriminate | split; reflexivity].
    + split; [split; [intros [e He]; discriminate He
                      | intros [_ [e He]]; discriminate He]|].
      split; [discriminate|].
      split; [now intros r [= <-] | split; reflexivity].
  - split; [split; [intros [e He]; discriminate He
                    | intros [[e He] _]; discriminate He]|].
    split; [discriminate|].
    split; [now intros r [= <-] | split; reflexivity].
Qed.

(** C7, counterexample: a fresh machine that cannot reach the remote.  In
    the second variant the clone fails, the pull fails, and both operations
    complete as if they had succeeded. *)
Lemma C7_counterexample :
  snd (git_clone Mock.env RootzMCPService.REPO_URL RootzMCPService.localPath
         Mock.offline_world) = inl Mock.unreachable
  /\ snd (git_pull Mock.env RootzMCPService.localPath "origin" "main"
            Mock.offline_world) = inl Mock.no_repository
  /\ RootzMCPService.initializeSync Mock.env (init Mock.offline_world)
     = ({| world := Mock.offline_world;
           trace := [EvRm RootzMCPService.localPath;
                     EvClone RootzMCPService.REPO_URL
                       RootzMCPService.localPath] |},
        inr tt)
  /\ RootzMCPService.pullLatest Mock.env (init Mock.offline_world)
     = ({| world := Mock.offline_world;
           trace := [EvPull RootzMCPService.localPath "origin" "main"] |},
        inr tt).
Proof. repeat split. Qed.

(** C5 (as amended).  In the shell variant, when the clone attempt fails,
    for whatever reason, the operation falls through to
    [git pull origin main] in the local directory, and its outcome is the
    outcome of that pull: success when the pull succeeds, an [McpError] when
    it fails.  The cause of the clone failure is not examined.  The other
    variant removes the directory before cloning and never pulls in
    [initializeSync]. *)
Theorem C5_clone_failure_falls_through :
  forall (W : Type) (env : Env W) (st : State W) (w1 : W) (e : JsError),
    execAsync env RootzMCPServer.clone_command (world st) = (w1, inl e) ->
    let r2 := execAsync env RootzMCPServer.pull_command w1 in
    let out := RootzMCPServer.syncRepository env st in
    trace (fst out)
      = (trace st ++ [EvExec RootzMCPServer.clone_command;
                      EvExec RootzMCPServer.pull_command])%list
    /\ world (fst out) = fst r2
    /\ snd out
       = match snd r2 with
         | inr _ => inr RootzMCPServer.sync_ok
         | inl e2 =>
             inl {| code := InternalError;
                    mcp_message :=
                      "Failed to sync repository: " ++ error_toString e2 |}
         end
    /\ trace (fst (RootzMCPService.initializeSync env st))
       = (trace st ++ [EvRm RootzMCPService.localPath;
                       EvClone RootzMCPService.REPO_URL
                         RootzMCPService.localPath])%list.
Proof.
  intros W env st w1 e Hclone r2 out. subst out r2.
  rewrite syncRepository_run, initializeSync_run. cbv zeta.
  rewrite Hclone. cbn [fst snd trace world]. rewrite <- !app_assoc.
  repeat split.
Qed.

(** C5, witness: the mirror is in place, so the clone is refused and the
    pull brings the latest files. *)
Lemma C5_clone_failure_witness :
  snd (RootzMCPServer.syncRepository Mock.env (init Mock.synced_world))
  = inr RootzMCPServer.sync_ok.
Proof.
  exact (proj1 (proj2 (proj2
    (C5_clone_failure_falls_through Mock.World Mock.env
       (init Mock.synced_world) Mock.synced_world Mock.already_exists
       eq_refl)))).
Defined.

(** C5, counterexample: the network is down during the clone and back for
    the pull.  The clone fails for a reason other than the directory being
    there, and the operation succeeds all the same. *)
Lemma C5_counterexample :
  execAsync Mock.flaky_env RootzMCPServer.clone_command 0
    = (1, inl Mock.unreachable)
  /\ Mock.directory_already_present Mock.unreachable = false
  /\ snd (RootzMCPServer.syncRepository Mock.flaky_env (init 0))
     = inr RootzMCPServer.sync_ok.
Proof. repeat split. Qed.

(** ** Arguments, paths and errors at the dispatchers (claims C3, C4, C6) *)

Section DispatchRuns.
Context {W : Type} (env : Env W).

(** [analyzeHtmlStructure] on a non-empty path: one [cat]. *)
Lemma server_analyze_run (p : string) (st : State W) :
  Js.truthy p = true ->
  RootzMCPServer.analyzeHtmlStructure env (Some p) st =
  let r := execAsync env (RootzMCPServer.cat_command p) (world st) in
  ({| world := fst r;
      trace := (trace st ++ [EvExec (RootzMCPServer.cat_command p)])%list |},
   match snd r with
   | inl e =>
       inl {| code := InternalError;
              mcp_message :=
                "Failed to analyze file " ++ p ++ ": " ++ error_toString e |}
   | inr stdout =>
       inr {| content :=
                [text_block
                   ("HTML Structure Analysis for: " ++ p ++ Js.nl ++ Js.nl
                    ++ stringify_structure env
                         (RootzMCPServer.analysis p stdout))];
              isError := None |}
   end).
Proof.
  intros Hp. unfold RootzMCPServer.analyzeHtmlStructure. rewrite Hp.
  cbn [negb]. unfold try_catch. rewrite bind_run. unfold RootzMCPServer.exec.
  rewrite perform_run. cbv zeta.
  destruct (execAsync env _ _) as [w [e|c]]; reflexivity.
Qed.

(** Both readers of variant 1 refuse a missing path before doing anything. *)
Lemma server_missing_path (path : option string) (st : State W) :
  missing path ->
  RootzMCPServer.getFileContent env path st
    = (st, inl RootzMCPServer.path_required)
  /\ RootzMCPServer.analyzeHtmlStructure env path st
     = (st, inl RootzMCPServer.path_required).
Proof. intros [->| ->]; split; reflexivity. Qed.

(** [analyzeHTML] is the analysis of what [getFileContent] returns. *)
Lemma analyzeHTML_run (filePath : option string) (st : State W) :
  RootzMCPService.analyzeHTML env filePath st =
  match RootzMCPService.getFileContent env filePath st with
  | (st', inr content) =>
      (st', inr (RootzMCPService.analyze_elements (cheerio_all env content)))
  | (st', inl e) => (st', inl e)
  end.
Proof. reflexivity. Qed.

Lemma error_text_length (e : JsError) :
  (7 <= Js.length (RootzMCPService.error_text e))%N.
Proof.
  unfold RootzMCPService.error_text. rewrite Js_length_append.
  change (Js.length "Error: ") with 7%N. lia.
Qed.

(** The trace of a read of variant 2: the pull, then the read of the joined
    path. *)
Lemma service_read_trace (p : string) (st : State W) :
  trace (fst (RootzMCPService.getFileContent env (Some p) st))
  = (trace st ++ [EvPull RootzMCPService.localPath "origin" "main";
                  EvReadFile (Path.join RootzMCPService.localPath p)])%list.
Proof.
  rewrite service_getFileContent_run, pullLatest_run. cbv zeta.
  cbn [fst trace]. now rewrite <- app_assoc.
Qed.

End DispatchRuns.

(** Steps into the [try] block of the second handler for a request whose
    tool is known and whose argument [Hf] tells. *)
Ltac enter_dispatch Hf :=
  rewrite service_callTool_run;
  unfold RootzMCPService.dispatch;
  cbn [tool String.eqb Ascii.eqb Bool.eqb];
  rewrite bind_run;
  unfold RootzMCPService.argument;
  cbn [arguments];
  rewrite Hf;
  unfold ret at 1;
  rewrite bind_run.

(** C6 (as amended).  In the shell variant, calling the file-content tool or
    the analysis tool with an absent or empty [path] argument throws the
    [McpError] [InvalidParams: Path is required] before anything is
    attempted: the state and the trace are unchanged.  The other variant has
    no presence check.  Without an arguments object the call ends in an
    error response and nothing is attempted; with the argument absent from
    the object, the pull is attempted and [path.join] throws, which gives an
    error response without a read; with the empty string, the pull is
    attempted and then the read of the mirror directory itself. *)
Theorem C6_missing_path :
  forall (W : Type) (env : Env W) (st : State W) (request : Request)
         (obj : list (string * string)),
    tool request = "get_file_content"
    \/ tool request = "analyze_html_structure" ->
    missing (RootzMCPServer.path_argument request) ->
    let pulled := fst (RootzMCPService.pullLatest env st) in
    let file_tool args := {| tool := "get_file_content"; arguments := args |} in
    let html_tool args :=
      {| tool := "analyze_html_structure"; arguments := args |} in
    RootzMCPServer.callTool env request st
      = (st, inl RootzMCPServer.path_required)
    /\ RootzMCPService.callTool env (file_tool None) st
       = (st, inr (RootzMCPService.error_response
                     (ERR_UNDEFINED_PROPERTY "file_path")))
    /\ RootzMCPService.callTool env (html_tool None) st
       = (st, inr (RootzMCPService.error_response
                     (ERR_UNDEFINED_PROPERTY "html_file")))
    /\ (field "file_path" obj = None ->
        RootzMCPService.callTool env (file_tool (Some obj)) st
        = (pulled, inr (RootzMCPService.error_response ERR_INVALID_ARG_TYPE)))
    /\ (field "html_file" obj = None ->
        RootzMCPService.callTool env (html_tool (Some obj)) st
        = (pulled, inr (RootzMCPService.error_response ERR_INVALID_ARG_TYPE)))
    /\ trace pulled
       = (trace st ++ [EvPull RootzMCPService.localPath "origin" "main"])%list
    /\ (field "file_path" obj = Some EmptyString ->
        trace (fst (RootzMCPService.callTool env (file_tool (Some obj)) st))
        = (trace st ++ [EvPull RootzMCPService.localPath "origin" "main";
                        EvReadFile "rootz-sync"])%list)
    /\ (field "html_file" obj = Some EmptyString ->
        trace (fst (RootzMCPService.callTool env (html_tool (Some obj)) st))
        = (trace st ++ [EvPull RootzMCPService.localPath "origin" "main";
                        EvReadFile "rootz-sync"])%list).
Proof.
  intros W env st request obj Htool Hmiss pulled file_tool html_tool.
  subst pulled file_tool html_tool.
  split.
  { unfold RootzMCPServer.callTool.
    destruct (server_missing_path env _ st Hmiss) as [Hget Han].
    destruct Htool as [-> | ->]; cbn [String.eqb Ascii.eqb Bool.eqb];
      assumption. }
  split; [reflexivity|]. split; [reflexivity|].
  split.
  { intros Hf. enter_dispatch Hf.
    now rewrite service_getFileContent_undefined. }
  split.
  { intros Hf. enter_dispatch Hf.
    now rewrite analyzeHTML_run, service_getFileContent_undefined. }
  split.
  { now rewrite pullLatest_run. }
  split.
  { intros Hf. enter_dispatch Hf.
    pose proof (service_read_trace env EmptyString st) as Ht.
    destruct (RootzMCPService.getFileContent env (Some EmptyString) st)
      as [st' [e|c]]; exact Ht. }
  { intros Hf. enter_dispatch Hf. rewrite analyzeHTML_run.
    pose proof (service_read_trace env EmptyString st) as Ht.
    destruct (RootzMCPService.getFileContent env (Some EmptyString) st)
      as [st' [e|c]]; exact Ht. }
Qed.

(** C6, witness: the file-content tool called with an empty [path]. *)
Lemma C6_missing_path_witness :
  RootzMCPServer.callTool Mock.env
    {| tool := "get_file_content"; arguments := Some [("path", EmptyString)] |}
    (init Mock.synced_world)
  = (init Mock.synced_world, inl RootzMCPServer.path_required).
Proof.
  exact (proj1
    (C6_missing_path Mock.World Mock.env (init Mock.synced_world)
       {| tool := "get_file_content";
          arguments := Some [("path", EmptyString)] |}
       [] (or_introl eq_refl) (or_intror eq_refl))).
Defined.

(** C6, counterexample: the file-content tool of the second variant called
    with an empty [file_path].  A read is attempted, on the mirror directory,
    and the response carries the error of that read. *)
Lemma C6_counterexample :
  RootzMCPService.callTool Mock.env
    {| tool := "get_file_content";
       arguments := Some [("file_path", EmptyString)] |}
    (init Mock.synced_world)
  = ({| world := Mock.synced_world;
        trace := [EvPull "./rootz-sync" "origin" "main";
                  EvReadFile "rootz-sync"] |},
     inr (RootzMCPService.error_response
            (Mock.failure "EISDIR: illegal operation on a directory, read")))
  /\ existsb is_read
       [EvPull "./rootz-sync" "origin" "main"; EvReadFile "rootz-sync"]
     = true.
Proof. split; reflexivity. Qed.

(** C3 (as amended).  In the variant whose handler wraps the dispatch in
    [try]/[catch], every tool call returns a response: when anything inside
    fails (a handler, an unknown tool, a missing arguments object) the
    response has [isError = true] and one text block [Error: ...] of at least
    seven characters.  In the shell variant a handler failure is not
    contained: a failed read is rethrown as an [McpError] with code
    [InternalError], which leaves the handler as a protocol-level error. *)
Theorem C3_error_containment :
  forall (W : Type) (env : Env W) (st : State W) (request : Request)
         (p : string) (w1 : W) (e : JsError),
    Js.truthy p = true ->
    execAsync env (RootzMCPServer.cat_command p) (world st) = (w1, inl e) ->
    let after_cat :=
      {| world := w1;
         trace := (trace st ++ [EvExec (RootzMCPServer.cat_command p)])%list |} in
    (exists st' response,
        RootzMCPService.callTool env request st = (st', inr response))
    /\ (forall st' error,
          RootzMCPService.dispatch env request st = (st', inl error) ->
          RootzMCPService.callTool env request st
            = (st', inr (RootzMCPService.error_response error))
          /\ isError (RootzMCPService.error_response error) = Some true
          /\ content (RootzMCPService.error_response error)
             = [text_block (RootzMCPService.error_text error)]
          /\ (7 <= Js.length (RootzMCPService.error_text error))%N)
    /\ RootzMCPServer.callTool env
         {| tool := "get_file_content"; arguments := Some [("path", p)] |} st
       = (after_cat,
          inl {| code := InternalError;
                 mcp_message :=
                   "Failed to read file " ++ p ++ ": " ++ error_toString e |})
    /\ RootzMCPServer.callTool env
         {| tool := "analyze_html_structure";
            arguments := Some [("path", p)] |} st
       = (after_cat,
          inl {| code := InternalError;
                 mcp_message :=
                   "Failed to analyze file " ++ p ++ ": "
                   ++ error_toString e |}).
Proof.
  intros W env st request p w1 e Hp Hcat after_cat. split; [|split; [|split]].
  - rewrite service_callTool_run.
    destruct (RootzMCPService.dispatch env request st) as [st' [err|resp]];
      eauto.
  - intros st' error Hd. rewrite service_callTool_run, Hd.
    split; [reflexivity|]. split; [reflexivity|]. split; [reflexivity|].
    apply error_text_length.
  - unfold RootzMCPServer.callTool, RootzMCPServer.path_argument.
    cbn [tool arguments field String.eqb Ascii.eqb Bool.eqb].
    rewrite (server_getFileContent_run env p st Hp). cbv zeta.
    now rewrite Hcat.
  - unfold RootzMCPServer.callTool, RootzMCPServer.path_argument.
    cbn [tool arguments field String.eqb Ascii.eqb Bool.eqb].
    rewrite (server_analyze_run env p st Hp). cbv zeta.
    now rewrite Hcat.
Qed.

(** C3, witness: a file that is not in the mirror, asked of both variants. *)
Lemma C3_error_containment_witness :
  exists st' response,
    RootzMCPService.callTool Mock.env
      {| tool := "get_file_content";
         arguments := Some [("file_path", "nope.html")] |}
      (init Mock.synced_world) = (st', inr response).
Proof.
  exact (proj1
    (C3_error_containment Mock.World Mock.env (init Mock.synced_world)
       {| tool := "get_file_content";
          arguments := Some [("file_path", "nope.html")] |}
       "nope.html" Mock.synced_world
       (Mock.failure
          "ENOENT: no such file or directory, open 'rootz-project/nope.html'")
       eq_refl eq_refl)).
Defined.

(** C3, counterexample: the shell variant asked for a file that is not in
    the mirror.  The handler's failure leaves [callTool] as a thrown
    [McpError], not as a response. *)
Lemma C3_counterexample :
  snd (RootzMCPServer.callTool Mock.env
         {| tool := "get_file_content";
            arguments := Some [("path", "nope.html")] |}
         (init Mock.synced_world))
  = inl {| code := InternalError;
           mcp_message :=
             "Failed to read file nope.html: Error: ENOENT: no such file or directory, open 'rootz-project/nope.html'" |}.
Proof. reflexivity. Qed.

(** C4 (as amended).  For every [relativePath] argument, the file-content
    operation joins the path onto the mirror's local root and reads whatever
    the result names: the second variant reads [path.join(localPath,
    filePath)], the shell variant runs [cat] on the root, a slash and the
    path as given.  Neither examines the resulting path, so a path with [..]
    segments that resolves outside the root is read like any other. *)
Theorem C4_path_is_not_confined :
  forall (W : Type) (env : Env W) (st : State W) (p : string),
    Js.truthy p = true ->
    let fullPath := Path.join RootzMCPService.localPath p in
    let pulled := fst (RootzMCPService.pullLatest env st) in
    trace (fst (RootzMCPService.getFileContent env (Some p) st))
      = (trace st ++ [EvPull RootzMCPService.localPath "origin" "main";
                      EvReadFile fullPath])%list
    /\ snd (RootzMCPService.getFileContent env (Some p) st)
       = match snd (fs_readFile env fullPath (world pulled)) with
         | inl e => inl e
         | inr content => inr (RootzMCPService.bounded content)
         end
    /\ trace (fst (RootzMCPServer.getFileContent env (Some p) st))
       = (trace st ++ [EvExec (RootzMCPServer.cat_command p)])%list
    /\ RootzMCPServer.cat_command p
       = "cat " ++ Js.dquote ++ "./rootz-project/" ++ p ++ Js.dquote.
Proof.
  intros W env st p Hp fullPath pulled. split; [|split; [|split]].
  - apply service_read_trace.
  - now rewrite service_getFileContent_run.
  - now rewrite (server_getFileContent_run env p st Hp).
  - reflexivity.
Qed.

(** C4, witness: a file of the mirror. *)
Lemma C4_path_witness :
  trace (fst (RootzMCPService.getFileContent Mock.env (Some "index.html")
                (init Mock.synced_world)))
  = [EvPull "./rootz-sync" "origin" "main"; EvReadFile "rootz-sync/index.html"].
Proof.
  exact (proj1
    (C4_path_is_not_confined Mock.World Mock.env (init Mock.synced_world)
       "index.html" eq_refl)).
Defined.

(** C4, counterexample: the path [../secret.txt].  The joined path is
    [secret.txt], which is not within the mirror root; it is read, and its
    content is returned, by both variants. *)
Lemma C4_counterexample :
  Path.join RootzMCPService.localPath "../secret.txt" = "secret.txt"
  /\ Path.within "rootz-sync" "secret.txt" = false
  /\ RootzMCPService.getFileContent Mock.env (Some "../secret.txt")
       (init Mock.synced_world)
     = ({| world := Mock.synced_world;
           trace := [EvPull "./rootz-sync" "origin" "main";
                     EvReadFile "secret.txt"] |},
        inr "password")
  /\ snd (RootzMCPServer.getFileContent Mock.env (Some "../secret.txt")
            (init Mock.synced_world))
     = inr {| content :=
                [text_block
                   ("File: ../secret.txt" ++ Js.nl ++ Js.nl ++ "password")];
              isError := None |}.
Proof. repeat split. Qed.

(** ** The analysis sees the bounded content (claim C10) *)

Lemma big_page_length : Js.length Mock.big_page = 45038%N.
Proof.
  unfold Mock.big_page. rewrite !Js_length_append, Js_letters_length.
  reflexivity.
Qed.

(** C10.  In the parsing variant the analysis runs on what the bounded read
    returns: for every file longer than 45000 characters the parser is given
    the first 45000 characters followed by the truncation marker, and nothing
    else.  Two files that agree on their first 45000 characters are analysed
    alike, so classes, ids and elements that occur only after the limit are
    not in the result. *)
Theorem C10_analysis_of_bounded_content :
  forall (W : Type) (env : Env W) (st : State W) (p content : string) (w2 : W),
    fs_readFile env (Path.join RootzMCPService.localPath p)
      (world (fst (RootzMCPService.pullLatest env st)))
      = (w2, inr content) ->
    (45000 < Js.length content)%N ->
    let seen :=
      Js.slice 0 45000 content ++ RootzMCPService.truncation_marker in
    snd (RootzMCPService.analyzeHTML env (Some p) st)
      = inr (RootzMCPService.analyze_elements (cheerio_all env seen))
    /\ Js.length (Js.slice 0 45000 content) = 45000%N
    /\ String.prefix (Js.slice 0 45000 content) content = true
    /\ (forall content' : string,
          (45000 < Js.length content')%N ->
          Js.slice 0 45000 content' = Js.slice 0 45000 content ->
          RootzMCPService.bounded content' = seen)
    /\ (forall extra : string,
          RootzMCPService.bounded (content ++ extra) = seen).
Proof.
  intros W env st p content w2 Hread HL seen. subst seen.
  change 45000%N with RootzMCPService.MAX_FILE_SIZE in *.
  split; [|split; [|split; [|split]]].
  - rewrite analyzeHTML_run, service_getFileContent_run. cbv zeta.
    rewrite Hread. cbn [snd]. now rewrite (bounded_long _ HL).
  - now apply slice_limit_length.
  - rewrite Js_slice0. apply substring0_prefix.
  - intros content' HL' Hsame. now rewrite (bounded_long _ HL'), Hsame.
  - intros extra. rewrite (bounded_ignores_tail _ _ HL).
    now apply bounded_long.
Qed.

(** C10, witness: the long page of the concrete world. *)
Lemma C10_analysis_witness :
  snd (RootzMCPService.analyzeHTML Mock.env (Some "big.html")
         (init Mock.big_world))
  = inr (RootzMCPService.analyze_elements
           (Mock.elements_of
              (Js.slice 0 45000 Mock.big_page
               ++ RootzMCPService.truncation_marker))).
Proof.
  refine (proj1
    (C10_analysis_of_bounded_content Mock.World Mock.env (init Mock.big_world)
       "big.html" Mock.big_page Mock.big_world eq_refl _)).
  rewrite big_page_length. reflexivity.
Defined.

(** ** Syncing twice (claim C8)

    What git and the file system do is not in the source; the section states
    what is assumed of them.  [tree] is the observable file tree of the
    mirror, [remote] the state of the remote repository as the machine sees
    it, [synced] holds of a world whose mirror is a checkout of the current
    remote, and [absent] of a world with no mirror directory. *)

Section Idempotence.
Context {W T R : Type} (env : Env W).
Variable tree : W -> T.
Variable remote : W -> R.
Variable synced : W -> Prop.
Variable absent : W -> Prop.

(** A clone or a pull that succeeds leaves the mirror in sync. *)
Hypothesis clone_ok_synced : forall w w' out,
  execAsync env RootzMCPServer.clone_command w = (w', inr out) -> synced w'.
Hypothesis pull_ok_synced : forall w w' out,
  execAsync env RootzMCPServer.pull_command w = (w', inr out) -> synced w'.

(** A clone or a pull that fails changes nothing. *)
Hypothesis clone_failure_atomic : forall w w' e,
  execAsync env RootzMCPServer.clone_command w = (w', inl e) -> w' = w.
Hypothesis pull_failure_atomic : forall w w' e,
  execAsync env RootzMCPServer.pull_command w = (w', inl e) -> w' = w.

(** Git refuses to clone over a mirror that is in place. *)
Hypothesis clone_refused : forall w,
  synced w ->
  exists e, snd (execAsync env RootzMCPServer.clone_command w) = inl e.

(** With no new commit on the remote, a pull leaves the files as they are. *)
Hypothesis pull_up_to_date : forall w,
  synced w ->
  tree (fst (execAsync env RootzMCPServer.pull_command w)) = tree w.

(** Removing the mirror leaves none, and neither removing nor cloning
    changes the remote. *)
Hypothesis rm_absent : forall w,
  absent (fst (fs_rm env RootzMCPService.localPath w)).
Hypothesis rm_remote : forall w,
  remote (fst (fs_rm env RootzMCPService.localPath w)) = remote w.
Hypothesis clone_remote : forall w,
  remote (fst (git_clone env RootzMCPService.REPO_URL
                 RootzMCPService.localPath w)) = remote w.

(** What a clone into no directory leaves depends on the remote alone. *)
Hypothesis clone_determined : forall w w',
  absent w -> absent w' -> remote w = remote w' ->
  tree (fst (git_clone env RootzMCPService.REPO_URL
               RootzMCPService.localPath w))
  = tree (fst (git_clone env RootzMCPService.REPO_URL
                 RootzMCPService.localPath w')).

(** After a sync of the shell variant, the mirror is in sync or the world is
    the one before. *)
Lemma syncRepository_outcome (st : State W) :
  synced (world (fst (RootzMCPServer.syncRepository env st)))
  \/ (world (fst (RootzMCPServer.syncRepository env st)) = world st
      /\ exists e1 e2,
           execAsync env RootzMCPServer.clone_command (world st)
             = (world st, inl e1)
           /\ execAsync env RootzMCPServer.pull_command (world st)
              = (world st, inl e2)).
Proof.
  rewrite syncRepository_run. cbv zeta.
  destruct (execAsync env RootzMCPServer.clone_command (world st))
    as [w1 [e1|out1]] eqn:E1; cbn [fst snd world].
  - apply clone_failure_atomic in E1 as Hw. subst w1.
    destruct (execAsync env RootzMCPServer.pull_command (world st))
      as [w2 [e2|out2]] eqn:E2; cbn [fst].
    + apply pull_failure_atomic in E2 as Hw. subst w2. right. eauto.
    + left. eapply pull_ok_synced, E2.
  - left. eapply clone_ok_synced, E1.
Qed.

(** A sync of the shell variant from a world in sync keeps the files. *)
Lemma syncRepository_synced (st : State W) :
  synced (world st) ->
  tree (world (fst (RootzMCPServer.syncRepository env st))) = tree (world st).
Proof.
  intros Hs. rewrite syncRepository_run. cbv zeta.
  destruct (clone_refused _ Hs) as [e He]. rewrite He. cbn [fst world].
  destruct (execAsync env RootzMCPServer.clone_command (world st))
    as [w1 r1] eqn:E1. cbn [snd] in He. subst r1.
  apply clone_failure_atomic in E1. subst w1. cbn [fst].
  now apply pull_up_to_date.
Qed.

(** C8 (as amended).  Calling the sync operation twice in succession leaves
    the mirror's file tree after the second call as it was after the first,
    in the shell variant ([syncRepository]) and in the variant that removes
    the directory and clones again ([initializeSync]), on these conditions,
    which are the hypotheses of this section: the remote has no new commit
    and stays as reachable as it was, so that a clone or a pull that
    succeeds leaves the mirror a checkout of the remote, one that fails
    changes nothing, a clone over a mirror in place is refused, a pull into
    an up-to-date mirror keeps the files, removing the mirror and cloning
    leave the remote as it is, and what a clone into no directory leaves
    depends on the remote alone. *)
Theorem C8_sync_idempotent (st : State W) :
  let st1 := fst (RootzMCPServer.syncRepository env st) in
  let st2 := fst (RootzMCPServer.syncRepository env st1) in
  let s1 := fst (RootzMCPService.initializeSync env st) in
  let s2 := fst (RootzMCPService.initializeSync env s1) in
  tree (world st2) = tree (world st1) /\ tree (world s2) = tree (world s1).
Proof.
  cbv zeta. split.
  - destruct (syncRepository_outcome st) as [Hs | [Hw [e1 [e2 [E1 E2]]]]].
    + now apply syncRepository_synced.
    + rewrite (syncRepository_run env
                 (fst (RootzMCPServer.syncRepository env st))).
      cbv zeta. rewrite Hw, E1. cbn [fst snd]. now rewrite E2.
  - rewrite !initializeSync_run. cbv zeta. cbn [fst world].
    apply clone_determined; [apply rm_absent | apply rm_absent |].
    now rewrite rm_remote, clone_remote, rm_remote.
Qed.

End Idempotence.

(** The concrete world meets the assumptions of the section above. *)

Section MockFacts.

Lemma mock_shell_clone (w : Mock.World) :
  Mock.shell RootzMCPServer.clone_command w = Mock.as_string (Mock.clone w).
Proof. reflexivity. Qed.

Lemma mock_shell_pull (w : Mock.World) :
  Mock.shell RootzMCPServer.pull_command w = Mock.as_string (Mock.pull w).
Proof. reflexivity. Qed.

Lemma mock_clone_ok_synced (w w' : Mock.World) (out : string) :
  execAsync Mock.env RootzMCPServer.clone_command w = (w', inr out) ->
  Mock.synced w'.
Proof.
  cbn [execAsync Mock.env]. rewrite mock_shell_clone. unfold Mock.clone.
  destruct (Mock.mirror w) as [m|], (Mock.remote w) as [t|] eqn:Er;
    cbn [Mock.as_string]; try discriminate.
  intros [= <- _]. exists t. split; [reflexivity | exact Er].
Qed.

Lemma mock_pull_ok_synced (w w' : Mock.World) (out : string) :
  execAsync Mock.env RootzMCPServer.pull_command w = (w', inr out) ->
  Mock.synced w'.
Proof.
  cbn [execAsync Mock.env]. rewrite mock_shell_pull. unfold Mock.pull.
  destruct (Mock.mirror w) as [m|], (Mock.remote w) as [t|] eqn:Er;
    cbn [Mock.as_string]; try discriminate.
  intros [= <- _]. exists t. split; [reflexivity | exact Er].
Qed.

Lemma mock_clone_failure_atomic (w w' : Mock.World) (e : JsError) :
  execAsync Mock.env RootzMCPServer.clone_command w = (w', inl e) -> w' = w.
Proof.
  cbn [execAsync Mock.env]. rewrite mock_shell_clone. unfold Mock.clone.
  destruct (Mock.mirror w) as [m|], (Mock.remote w) as [t|];
    cbn [Mock.as_string]; try discriminate; now intros [= <- _].
Qed.

Lemma mock_pull_failure_atomic (w w' : Mock.World) (e : JsError) :
  execAsync Mock.env RootzMCPServer.pull_command w = (w', inl e) -> w' = w.
Proof.
  cbn [execAsync Mock.env]. rewrite mock_shell_pull. unfold Mock.pull.
  destruct (Mock.mirror w) as [m|], (Mock.remote w) as [t|];
    cbn [Mock.as_string]; try discriminate; now intros [= <- _].
Qed.

Lemma mock_clone_refused (w : Mock.World) :
  Mock.synced w ->
  exists e, snd (execAsync Mock.env RootzMCPServer.clone_command w) = inl e.
Proof.
  intros [t [Hm _]]. cbn [execAsync Mock.env]. rewrite mock_shell_clone.
  unfold Mock.clone. rewrite Hm. now exists Mock.already_exists.
Qed.

Lemma mock_pull_up_to_date (w : Mock.World) :
  Mock.synced w ->
  Mock.mirror (fst (execAsync Mock.env RootzMCPServer.pull_command w))
  = Mock.mirror w.
Proof.
  intros [t [Hm Hr]]. cbn [execAsync Mock.env]. rewrite mock_shell_pull.
  unfold Mock.pull. rewrite Hm, Hr. reflexivity.
Qed.

Lemma mock_clone_determined (w w' : Mock.World) :
  Mock.absent w -> Mock.absent w' -> Mock.remote w = Mock.remote w' ->
  Mock.mirror (fst (git_clone Mock.env RootzMCPService.REPO_URL
                      RootzMCPService.localPath w))
  = Mock.mirror (fst (git_clone Mock.env RootzMCPService.REPO_URL
                        RootzMCPService.localPath w')).
Proof.
  unfold Mock.absent. intros Hw Hw' Hr. cbn [git_clone Mock.env].
  unfold Mock.clone. rewrite Hw, Hw', <- Hr.
  destruct (Mock.remote w); cbn [fst Mock.with_mirror Mock.mirror]; congruence.
Qed.

Lemma mock_clone_remote (w : Mock.World) :
  Mock.remote (fst (git_clone Mock.env RootzMCPService.REPO_URL
                      RootzMCPService.localPath w)) = Mock.remote w.
Proof.
  cbn [git_clone Mock.env]. unfold Mock.clone.
  destruct (Mock.mirror w); [reflexivity|].
  destruct (Mock.remote w) eqn:Er; exact Er.
Qed.

End MockFacts.

(** C8, counterexample: the remote holds the same files throughout and
    only its reachability changes.  The variant that removes the directory
    first has the mirror after the first sync and none after the second;
    the shell variant, whose first sync fails, has no mirror after the first
    sync and one after the second. *)
Lemma C8_counterexample :
  let s1 := fst (RootzMCPService.initializeSync Mock.line_env
                   (init Mock.dropping_line)) in
  let s2 := fst (RootzMCPService.initializeSync Mock.line_env s1) in
  let t1 := fst (RootzMCPServer.syncRepository Mock.line_env
                   (init Mock.recovering_line)) in
  let t2 := fst (RootzMCPServer.syncRepository Mock.line_env t1) in
  (Mock.held (world s1) = Mock.site /\ Mock.held (world s2) = Mock.site
   /\ Mock.checkout (world s1) = Some Mock.site
   /\ Mock.checkout (world s2) = None)
  /\ (Mock.held (world t1) = Mock.site /\ Mock.held (world t2) = Mock.site
      /\ Mock.checkout (world t1) = None
      /\ Mock.checkout (world t2) = Some Mock.site).
Proof. cbv zeta. repeat split. Qed.

(** C8, witness: a fresh machine, synced twice by either variant. *)
Lemma C8_sync_idempotent_witness :
  Mock.mirror
    (world (fst (RootzMCPServer.syncRepository Mock.env
                   (fst (RootzMCPServer.syncRepository Mock.env
                           (init Mock.fresh_world))))))
  = Mock.mirror
      (world (fst (RootzMCPServer.syncRepository Mock.env
                     (init Mock.fresh_world))))
  /\ Mock.mirror
       (world (fst (RootzMCPService.initializeSync Mock.env
                      (fst (RootzMCPService.initializeSync Mock.env
                              (init Mock.fresh_world))))))
     = Mock.mirror
         (world (fst (RootzMCPService.initializeSync Mock.env
                        (init Mock.fresh_world)))).
Proof.
  exact (C8_sync_idempotent Mock.env Mock.mirror Mock.remote
           Mock.synced Mock.absent
           mock_clone_ok_synced mock_pull_ok_synced
           mock_clone_failure_atomic mock_pull_failure_atomic
           mock_clone_refused mock_pull_up_to_date
           (fun w => eq_refl) (fun w => eq_refl)
           mock_clone_remote mock_clone_determined
           (init Mock.fresh_world)).
Defined.

(** * Further properties of the handlers *)

(** ** The tool lists and the dispatchers *)

Section ToolLists.
Context {W : Type} (env : Env W).

(** The readers of variant 1 throw [InvalidParams] or [InternalError]. *)
Lemma server_getFileContent_code (path : option string) (st st' : State W)
    (e : McpError) :
  RootzMCPServer.getFileContent env path st = (st', inl e) ->
  code e <> MethodNotFound.
Proof.
  destruct path as [p|]; [|now intros [= _ <-]].
  destruct (Js.truthy p) eqn:Hp.
  - rewrite (server_getFileContent_run env p st Hp). cbv zeta.
    destruct (snd (execAsync env _ _)); [|discriminate].
    now intros [= _ <-].
  - destruct p; [|discriminate Hp]. now intros [= _ <-].
Qed.

Lemma server_analyze_code (path : option string) (st st' : State W)
    (e : McpError) :
  RootzMCPServer.analyzeHtmlStructure env path st = (st', inl e) ->
  code e <> MethodNotFound.
Proof.
  destruct path as [p|]; [|now intros [= _ <-]].
  destruct (Js.truthy p) eqn:Hp.
  - rewrite (server_analyze_run env p st Hp). cbv zeta.
    destruct (snd (execAsync env _ _)); [|discriminate].
    now intros [= _ <-].
  - destruct p; [|discriminate Hp]. now intros [= _ <-].
Qed.

Lemma server_sync_code (st st' : State W) (e : McpError) :
  RootzMCPServer.syncRepository env st = (st', inl e) ->
  code e <> MethodNotFound.
Proof.
  rewrite syncRepository_run. cbv zeta.
  destruct (snd (execAsync env RootzMCPServer.clone_command (world st)));
    [|discriminate].
  destruct (snd (execAsync env RootzMCPServer.pull_command _));
    [|discriminate].
  now intros [= _ <-].
Qed.

(** The trace of a read of variant 2 starts with the pull. *)
Lemma service_getFileContent_pulls (filePath : option string) (st : State W) :
  exists rest,
    trace (fst (RootzMCPService.getFileContent env filePath st))
    = (trace st ++ EvPull RootzMCPService.localPath "origin" "main" :: rest)%list.
Proof.
  destruct filePath as [p|].
  - rewrite service_read_trace. eauto.
  - rewrite service_getFileContent_undefined, pullLatest_run. now exists [].
Qed.

End ToolLists.

(** X1.  The dispatcher of the shell variant and its tool list agree: a
    request whose tool name is not one of the three listed names is refused
    with the [McpError] [MethodNotFound], [Unknown tool: name], and nothing
    is attempted; a request for a listed name is never refused with that
    code. *)
Theorem X1_server_unknown_tool :
  forall (W : Type) (env : Env W) (st : State W) (request : Request),
    (~ In (tool request) (map td_name RootzMCPServer.listTools)
     /\ RootzMCPServer.callTool env request st
        = (st, inl {| code := MethodNotFound;
                      mcp_message := "Unknown tool: " ++ tool request |}))
    \/ (In (tool request) (map td_name RootzMCPServer.listTools)
        /\ forall st' e,
             RootzMCPServer.callTool env request st = (st', inl e) ->
             code e <> MethodNotFound).
Proof.
  intros W env st request. unfold RootzMCPServer.callTool.
  destruct (String.eqb_spec (tool request) "get_file_content") as [E1|N1].
  { right. split; [rewrite E1; simpl; tauto|].
    intros st' e. apply server_getFileContent_code. }
  destruct (String.eqb_spec (tool request) "analyze_html_structure")
    as [E2|N2].
  { right. split; [rewrite E2; simpl; tauto|].
    intros st' e. apply server_analyze_code. }
  destruct (String.eqb_spec (tool request) "sync_repository") as [E3|N3].
  { right. split; [rewrite E3; simpl; tauto|].
    intros st' e. apply server_sync_code. }
  left. split; [|reflexivity].
  simpl. intros [H|[H|[H|[]]]]; congruence.
Qed.

(** X2.  The dispatcher of the second variant and its tool list agree: a
    request whose tool name is not one of the two listed names gets the
    error response [Error: Unknown tool: name] and nothing is attempted; a
    request for a listed name that carries an arguments object attempts the
    pull first. *)
Theorem X2_service_unknown_tool :
  forall (W : Type) (env : Env W) (st : State W) (request : Request),
    (~ In (tool request) (map td_name RootzMCPService.listTools)
     /\ RootzMCPService.callTool env request st
        = (st, inr {| content :=
                        [text_block ("Error: Unknown tool: " ++ tool request)];
                      isError := Some true |}))
    \/ (In (tool request) (map td_name RootzMCPService.listTools)
        /\ forall obj,
             arguments request = Some obj ->
             exists rest,
               trace (fst (RootzMCPService.callTool env request st))
               = (trace st
                  ++ EvPull RootzMCPService.localPath "origin" "main" :: rest)%list).
Proof.
  intros W env st request. rewrite service_callTool_run.
  unfold RootzMCPService.dispatch.
  destruct (String.eqb_spec (tool request) "get_file_content") as [E1|N1].
  { right. split; [rewrite E1; simpl; tauto|].
    intros obj Hobj. rewrite bind_run. unfold RootzMCPService.argument.
    rewrite Hobj. unfold ret at 1. rewrite bind_run.
    destruct (service_getFileContent_pulls env (field "file_path" obj) st)
      as [rest Hrest]. exists rest.
    destruct (RootzMCPService.getFileContent env _ st) as [st' [e|c]];
      exact Hrest. }
  destruct (String.eqb_spec (tool request) "analyze_html_structure")
    as [E2|N2].
  { right. split; [rewrite E2; simpl; tauto|].
    intros obj Hobj. rewrite bind_run. unfold RootzMCPService.argument.
    rewrite Hobj. unfold ret at 1. rewrite bind_run, analyzeHTML_run.
    destruct (service_getFileContent_pulls env (field "html_file" obj) st)
      as [rest Hrest]. exists rest.
    destruct (RootzMCPService.getFileContent env _ st) as [st' [e|c]];
      exact Hrest. }
  left. split; [|reflexivity].
  simpl. intros [H|[H|[]]]; congruence.
Qed.

(** X3.  In the shell variant every required key a listed tool declares is
    the key its handler reads: calling a listed tool with an object that
    holds a non-empty string under a declared key runs [cat] on the file of
    that name, and nothing else. *)
Theorem X3_server_declared_key_is_read :
  forall (W : Type) (env : Env W) (st : State W) (td : ToolDescriptor)
         (k p : string) (obj : list (string * string)),
    In td RootzMCPServer.listTools ->
    In k (required_keys td) ->
    field k obj = Some p ->
    Js.truthy p = true ->
    trace (fst (RootzMCPServer.callTool env
                  {| tool := td_name td; arguments := Some obj |} st))
    = (trace st ++ [EvExec (RootzMCPServer.cat_command p)])%list.
Proof.
  intros W env st td k p obj Htd Hk Hf Hp.
  destruct Htd as [<-|[<-|[<-|[]]]]; cbn [required_keys td_required] in Hk;
    try (destruct Hk as [<-|[]]); try contradiction;
    unfold RootzMCPServer.callTool, RootzMCPServer.path_argument;
    cbn [tool td_name arguments String.eqb Ascii.eqb Bool.eqb]; rewrite Hf.
  - now rewrite (server_getFileContent_run env p st Hp).
  - now rewrite (server_analyze_run env p st Hp).
Qed.

(** X3, witness: the file-content tool with its declared key [path]. *)
Lemma X3_server_declared_key_witness :
  trace (fst (RootzMCPServer.callTool Mock.env
                {| tool := "get_file_content";
                   arguments := Some [("path", "index.html")] |}
                (init Mock.synced_world)))
  = [EvExec (RootzMCPServer.cat_command "index.html")].
Proof.
  exact (X3_server_declared_key_is_read Mock.World Mock.env
           (init Mock.synced_world)
           {| td_name := "get_file_content";
              td_description :=
                "Get the content of a specific file from the Rootz project";
              td_properties :=
                [ {| prop_name := "path";
                     prop_type := "string";
                     prop_description :=
                       "Path to the file relative to project root (e.g., "
                       ++ Js.dquote ++ "gsap-exp/header-test.html"
                       ++ Js.dquote ++ ")" |} ];
              td_required := Some ["path"] |}
           "path" "index.html" [("path", "index.html")]
           (or_introl eq_refl) (or_introl eq_refl) eq_refl eq_refl).
Defined.

(** X4.  In the second variant every required key a listed tool declares is
    the key its handler reads: calling a listed tool with an object that
    holds a string under a declared key attempts the pull and then the read
    of [path.join(localPath, value)], and nothing else. *)
Theorem X4_service_declared_key_is_read :
  forall (W : Type) (env : Env W) (st : State W) (td : ToolDescriptor)
         (k p : string) (obj : list (string * string)),
    In td RootzMCPService.listTools ->
    In k (required_keys td) ->
    field k obj = Some p ->
    trace (fst (RootzMCPService.callTool env
                  {| tool := td_name td; arguments := Some obj |} st))
    = (trace st ++ [EvPull RootzMCPService.localPath "origin" "main";
                    EvReadFile (Path.join RootzMCPService.localPath p)])%list.
Proof.
  intros W env st td k p obj Htd Hk Hf.
  pose proof (service_read_trace env p st) as Ht.
  destruct Htd as [<-|[<-|[]]]; cbn [required_keys td_required] in Hk;
    destruct Hk as [<-|[]]; cbn [td_name]; enter_dispatch Hf.
  - destruct (RootzMCPService.getFileContent env (Some p) st)
      as [st' [e|c]]; exact Ht.
  - rewrite analyzeHTML_run.
    destruct (RootzMCPService.getFileContent env (Some p) st)
      as [st' [e|c]]; exact Ht.
Qed.

(** X4, witness: the analysis tool with its declared key [html_file]. *)
Lemma X4_service_declared_key_witness :
  trace (fst (RootzMCPService.callTool Mock.env
                {| tool := "analyze_html_structure";
                   arguments := Some [("html_file", "index.html")] |}
                (init Mock.synced_world)))
  = [EvPull "./rootz-sync" "origin" "main";
     EvReadFile "rootz-sync/index.html"].
Proof.
  exact (X4_service_declared_key_is_read Mock.World Mock.env
           (init Mock.synced_world)
           {| td_name := "analyze_html_structure";
              td_description := "Analyze HTML file for classes and structure";
              td_properties :=
                [ {| prop_name := "html_file";
                     prop_type := "string";
                     prop_description := "Path to HTML file" |} ];
              td_required := Some ["html_file"] |}
           "html_file" "index.html" [("html_file", "index.html")]
           (or_intror (or_introl eq_refl)) (or_introl eq_refl) eq_refl).
Defined.

(** ** Paths that stay inside the mirror *)

Section PathFacts.

Lemma prefix_append (a b : string) : String.prefix a (a ++ b) = true.
Proof.
  induction a as [|c a IH]; simpl; [now destruct b|].
  destruct (ascii_dec c c) as [_|ne]; [exact IH | now elim ne].
Qed.

(** Without [..] among the segments, normalization only drops the empty and
    the [.] segments. *)
Lemma normalizeSegments_plain (allow : bool) (segs res : list string) :
  ~ In ".." segs ->
  Path.normalizeSegments allow res segs
  = (rev res
     ++ filter (fun seg =>
                  negb (String.eqb seg EmptyString || String.eqb seg "."))
          segs)%list.
Proof.
  revert res. induction segs as [|seg segs IH]; intros res Hno;
    cbn [Path.normalizeSegments filter].
  - now rewrite app_nil_r.
  - assert (Hseg : seg <> "..") by (intros ->; apply Hno; now left).
    assert (Hrest : ~ In ".." segs) by (intros H; apply Hno; now right).
    destruct (String.eqb seg EmptyString || String.eqb seg ".") eqn:E;
      cbn [negb].
    + now apply IH.
    + apply String.eqb_neq in Hseg. rewrite Hseg.
      rewrite (IH (seg :: res) Hrest). cbn [rev].
      now rewrite <- app_assoc.
Qed.

Lemma split_under_root (p : string) :
  Js.split_on "/"%char ("./rootz-sync" ++ "/" ++ p)
  = "." :: "rootz-sync" :: Js.split_on "/"%char p.
Proof. reflexivity. Qed.

Lemma concat_under_root (kept : list string) :
  exists tail, String.concat "/" ("rootz-sync" :: kept) = "rootz-sync" ++ tail
               /\ (tail = EmptyString \/ String.prefix "/" tail = true).
Proof.
  destruct kept as [|k kept].
  - exists EmptyString. split; [reflexivity | now left].
  - exists ("/" ++ String.concat "/" (k :: kept)).
    split; [reflexivity | right; apply (prefix_append "/")].
Qed.

Lemma within_root_append (tail : string) :
  tail = EmptyString \/ String.prefix "/" tail = true ->
  Path.within "rootz-sync" ("rootz-sync" ++ tail) = true
  /\ Path.within "rootz-sync" (("rootz-sync" ++ tail) ++ "/") = true.
Proof.
  intros [->|Ht]; [split; reflexivity|].
  destruct tail as [|c tail]; [discriminate Ht|].
  unfold String.prefix in Ht. fold String.prefix in Ht.
  destruct (ascii_dec "/" c) as [<-|]; [|discriminate Ht].
  unfold Path.within. split; apply orb_true_iff; right.
  - apply (prefix_append "rootz-sync/" tail).
  - apply (prefix_append "rootz-sync/" (tail ++ "/")).
Qed.

Lemma join_plain_within (p : string) :
  ~ In ".." (Js.split_on "/"%char p) ->
  Path.within "rootz-sync" (Path.join RootzMCPService.localPath p) = true.
Proof.
  intros Hno. destruct p as [|c p]; [reflexivity|].
  change (Path.join RootzMCPService.localPath (String c p))
    with (Path.normalize ("./rootz-sync" ++ "/" ++ String c p)).
  set (full := "./rootz-sync" ++ "/" ++ String c p).
  assert (Hbody :
    Path.normalizeSegments (negb (Path.isAbsolute full)) []
      (Js.split_on "/"%char full)
    = "rootz-sync"
      :: filter (fun seg =>
                   negb (String.eqb seg EmptyString || String.eqb seg "."))
           (Js.split_on "/"%char (String c p))).
  { unfold full. rewrite split_under_root.
    change (Path.normalizeSegments
              (negb (Path.isAbsolute ("./rootz-sync" ++ "/" ++ String c p))) []
              ("." :: "rootz-sync" :: Js.split_on "/"%char (String c p)))
      with (Path.normalizeSegments true ["rootz-sync"]
              (Js.split_on "/"%char (String c p))).
    now rewrite (normalizeSegments_plain true _ ["rootz-sync"] Hno). }
  assert (Hnorm :
    Path.normalize full
    = match String.concat "/"
              (Path.normalizeSegments (negb (Path.isAbsolute full)) []
                 (Js.split_on "/"%char full)) with
      | EmptyString => if Path.endsWithSlash full then "./" else "."
      | body => if Path.endsWithSlash full then body ++ "/" else body
      end).
  { unfold full. cbn [append Path.normalize Path.isAbsolute].
    now destruct (String.concat _ _). }
  rewrite Hnorm, Hbody.
  destruct (concat_under_root
              (filter (fun seg =>
                         negb (String.eqb seg EmptyString
                               || String.eqb seg "."))
                 (Js.split_on "/"%char (String c p)))) as [tail [-> Ht]].
  destruct (within_root_append tail Ht) as [H1 H2].
  change ("rootz-sync" ++ tail) with (String "r" ("ootz-sync" ++ tail)) at 1.
  cbv iota. change (String "r" ("ootz-sync" ++ tail)) with ("rootz-sync" ++ tail).
  now destruct (Path.endsWithSlash full).
Qed.

End PathFacts.

(** X5.  A path with no [..] segment never leaves the mirror: for every such
    path, also an empty one or one written as absolute, the file the second
    variant reads is the mirror root or lies below it. *)
Theorem X5_plain_paths_stay_inside :
  forall (W : Type) (env : Env W) (st : State W) (p : string),
    ~ In ".." (Js.split_on "/"%char p) ->
    exists fullPath,
      trace (fst (RootzMCPService.getFileContent env (Some p) st))
      = (trace st ++ [EvPull RootzMCPService.localPath "origin" "main";
                      EvReadFile fullPath])%list
      /\ Path.within "rootz-sync" fullPath = true.
Proof.
  intros W env st p Hno. exists (Path.join RootzMCPService.localPath p).
  split; [apply service_read_trace | now apply join_plain_within].
Qed.

(** X5, witness: a path written as absolute is read below the root. *)
Lemma X5_plain_paths_witness :
  exists fullPath,
    trace (fst (RootzMCPService.getFileContent Mock.env (Some "/etc/passwd")
                  (init Mock.synced_world)))
    = [EvPull "./rootz-sync" "origin" "main"; EvReadFile fullPath]
    /\ Path.within "rootz-sync" fullPath = true.
Proof.
  refine (X5_plain_paths_stay_inside Mock.World Mock.env
            (init Mock.synced_world) "/etc/passwd" _).
  cbn. intros [H|[H|[H|[]]]]; discriminate H.
Defined.

(** ** What the patterns capture *)

Section Captures.

Lemma every_of_list (p : ascii -> bool) (l : list ascii) :
  Js.every p (string_of_list_ascii l) = forallb p l.
Proof. induction l as [|c l IH]; simpl; [reflexivity | now rewrite IH]. Qed.

Lemma forallb_rev (p : ascii -> bool) (l : list ascii) :
  forallb p (rev l) = forallb p l.
Proof.
  induction l as [|c l IH]; simpl; [reflexivity|].
  rewrite forallb_app, IH. simpl. rewrite andb_true_r. apply andb_comm.
Qed.

(** Outside a group a repetition leaves the capture as it is. *)
Lemma star_loop_outside (p : ascii -> bool) k (cap : list ascii) (s : string) r :
  Regex.star_loop p k false cap s = Some r -> exists s', k cap s' = Some r.
Proof.
  induction s as [|x s IH]; simpl; [eauto|].
  destruct (p x); [|eauto].
  destruct (Regex.star_loop p k false cap s) as [r'|] eqn:E.
  - intros [= ->]. now apply IH.
  - eauto.
Qed.

(** Inside a group a repetition adds characters of its class only. *)
Lemma star_loop_inside (p : ascii -> bool) k (s : string) (cap : list ascii) r :
  forallb p cap = true -> cap <> [] ->
  Regex.star_loop p k true cap s = Some r ->
  exists cap' s', forallb p cap' = true /\ cap' <> [] /\ k cap' s' = Some r.
Proof.
  revert cap. induction s as [|x s IH]; intros cap Hcap Hne; simpl.
  - eauto.
  - destruct (p x) eqn:Hx; [|eauto].
    destruct (Regex.star_loop p k true (x :: cap) s) eqn:E.
    + intros [= <-]. apply (IH (x :: cap)); [simpl; now rewrite Hx| |exact E].
      discriminate.
    + eauto.
Qed.

(** A part of a pattern without a group, matched outside the group, leaves
    the capture to the rest of the pattern. *)
Lemma matchHere_outside (pat1 pat2 : Regex.pattern) (cap : list ascii) s r :
  Regex.no_group pat1 = true ->
  Regex.matchHere (pat1 ++ pat2)%list false cap s = Some r ->
  exists s', Regex.matchHere pat2 false cap s' = Some r.
Proof.
  revert s. induction pat1 as [|a pat1 IH]; intros s Hng; [simpl; eauto|].
  destruct a as [ch|p|p|p| |]; cbn [Regex.no_group] in Hng;
    try discriminate Hng; cbn [app Regex.matchHere Regex.push].
  - destruct s as [|x s]; [discriminate|].
    destruct (Ascii.eqb x ch); [|discriminate]. now apply IH.
  - destruct s as [|x s]; [discriminate|].
    destruct (p x); [|discriminate]. now apply IH.
  - destruct s as [|x s]; [discriminate|].
    destruct (p x); [|discriminate].
    intros H. apply star_loop_outside in H as [s' H]. now apply IH in H.
  - intros H. apply star_loop_outside in H as [s' H]. now apply IH in H.
Qed.

(** The capture of a pattern whose only group is one repetition [(p+)]:
    it is not empty and all its characters are of the class [p]. *)
Lemma group_capture (pre post : Regex.pattern) (p : ascii -> bool) s c rest :
  Regex.no_group pre = true -> Regex.no_group post = true ->
  Regex.matchHere
    (pre ++ Regex.Open :: Regex.Plus p :: Regex.Close :: post)%list false [] s
    = Some (c, rest) ->
  c <> EmptyString /\ Js.every p c = true.
Proof.
  intros Hpre Hpost H.
  apply matchHere_outside in H as [s1 H]; [|exact Hpre].
  cbn [Regex.matchHere] in H.
  destruct s1 as [|x s1]; [discriminate|].
  destruct (p x) eqn:Hx; [|discriminate].
  apply star_loop_inside in H as [cap [s2 [Hall [Hne H]]]];
    [|simpl; now rewrite Hx|discriminate].
  cbn [Regex.matchHere] in H.
  rewrite <- (app_nil_r post) in H.
  apply matchHere_outside in H as [s3 H]; [|exact Hpost].
  cbn [Regex.matchHere] in H. injection H as <- _.
  split.
  - destruct cap as [|y cap]; [now elim Hne|]. cbn [rev].
    destruct (rev cap); discriminate.
  - now rewrite every_of_list, forallb_rev.
Qed.

(** What holds of the capture of every match holds of every entry the loop
    collects. *)
Lemma all_matches_Forall (P : string -> Prop) (pat : Regex.pattern) :
  (forall s c rest, Regex.matchHere pat false [] s = Some (c, rest) -> P c) ->
  forall s, Forall P (Regex.all_matches pat s).
Proof.
  intros HP.
  assert (Hexec : forall s c rest, Regex.exec pat s = Some (c, rest) -> P c).
  { induction s as [|x s IH]; intros c rest; cbn [Regex.exec];
      destruct (Regex.matchHere pat false [] _) as [[c' r']|] eqn:E;
      try discriminate.
    - intros [= <- _]. eapply HP, E.
    - intros [= <- _]. eapply HP, E.
    - apply IH. }
  assert (Hloop : forall fuel s caps,
             Regex.exec_loop fuel pat s = Some caps -> Forall P caps).
  { induction fuel as [|fuel IH]; intros s caps; cbn [Regex.exec_loop];
      [discriminate|].
    destruct (Regex.exec pat s) as [[c rest]|] eqn:E.
    - destruct (Regex.exec_loop fuel pat rest) as [caps'|] eqn:E';
        [|discriminate].
      intros [= <-]. constructor; [eapply Hexec, E | eapply IH, E'].
    - intros [= <-]. constructor. }
  intros s. unfold Regex.all_matches.
  destruct (Regex.exec_loop _ pat s) eqn:E; [eapply Hloop, E | constructor].
Qed.

End Captures.

(** X6.  Whatever the markup, every tag the scanning variant reports is a
    non-empty string of the characters [A-Z], [a-z], [0-9] and [_], and
    every id it reports is a non-empty string with no quote character in
    it. *)
Theorem X6_scanned_tags_and_ids :
  forall (path stdout : string),
    Forall (fun t => t <> EmptyString /\ Js.every Regex.is_word t = true)
      (tags (RootzMCPServer.analysis path stdout))
    /\ Forall (fun i => i <> EmptyString /\ Js.every Regex.not_quote i = true)
         (ids (RootzMCPServer.analysis path stdout)).
Proof.
  intros path stdout. cbn [RootzMCPServer.analysis tags ids].
  unfold RootzMCPServer.scan_tags, RootzMCPServer.scan_ids.
  split; apply Forall_forall; intros x Hx;
    apply (proj1 (sort_In _ _)) in Hx; apply (proj1 (Set_from_In _ _)) in Hx;
    revert x Hx; apply Forall_forall;
    apply all_matches_Forall; intros s c rest.
  - apply (group_capture [Regex.Lit "<"%char]
             [Regex.Star Regex.not_gt; Regex.Lit ">"%char]); reflexivity.
  - apply (group_capture (Regex.lits "id=" ++ [Regex.Cls Regex.is_quote])%list
             [Regex.Cls Regex.is_quote]); reflexivity.
Qed.

(** ** Tokens *)

Section Tokens.

Lemma every_split_on (q : ascii -> bool) (sep : ascii) (s : string) :
  Js.every q s = true ->
  Forall (fun piece =>
            Js.every (fun c => q c && negb (Ascii.eqb c sep)) piece = true)
    (Js.split_on sep s).
Proof.
  induction s as [|c s IH]; cbn [Js.every Js.split_on].
  - intros _. now constructor.
  - intros H. apply andb_true_iff in H as [Hc Hs]. specialize (IH Hs).
    destruct (Ascii.eqb c sep) eqn:E; [now constructor|].
    destruct (Js.split_on sep s) as [|p ps].
    + constructor; [|constructor]. cbn. now rewrite Hc, E.
    + inversion IH as [|? ? Hp Hps]; subst. constructor; [|exact Hps].
      cbn [Js.every]. now rewrite Hc, E, Hp.
Qed.

Lemma every_trimStart (q : ascii -> bool) (s : string) :
  Js.every q s = true -> Js.every q (Js.trimStart s) = true.
Proof.
  induction s as [|c s IH]; cbn [Js.every Js.trimStart]; [easy|].
  intros H. destruct (Js.is_space c); [|exact H].
  apply andb_true_iff in H as [_ Hs]. now apply IH.
Qed.

Lemma every_trimEnd (q : ascii -> bool) (s : string) :
  Js.every q s = true -> Js.every q (Js.trimEnd s) = true.
Proof.
  induction s as [|c s IH]; cbn [Js.every Js.trimEnd]; [easy|].
  intros H. apply andb_true_iff in H as [Hc Hs]. specialize (IH Hs).
  destruct (Js.trimEnd s) as [|d r].
  - destruct (Js.is_space c); [reflexivity|]. cbn. now rewrite Hc.
  - change (q c && Js.every q (String d r) = true). now rewrite Hc, IH.
Qed.

Lemma trimEnd_idempotent (s : string) :
  Js.trimEnd (Js.trimEnd s) = Js.trimEnd s.
Proof.
  induction s as [|c s IH]; cbn [Js.trimEnd]; [reflexivity|].
  destruct (Js.trimEnd s) as [|d r] eqn:E.
  - destruct (Js.is_space c) eqn:Hc; [reflexivity|].
    cbn [Js.trimEnd]. now rewrite Hc.
  - cbn [Js.trimEnd]. fold Js.trimEnd. cbn [Js.trimEnd] in IH.
    change (Js.trimEnd (String c (String d r)))
      with (match Js.trimEnd (String d r) with
            | EmptyString =>
                if Js.is_space c then EmptyString else String c EmptyString
            | r0 => String c r0
            end).
    now rewrite IH.
Qed.

(** What [trimStart] leaves starts with no white space. *)
Lemma trimStart_head (s : string) :
  Js.trimStart s = EmptyString
  \/ exists c r, Js.trimStart s = String c r /\ Js.is_space c = false.
Proof.
  induction s as [|c s IH]; cbn [Js.trimStart]; [now left|].
  destruct (Js.is_space c) eqn:Hc; [exact IH | right; eauto].
Qed.

Lemma trimEnd_keeps_head (c : ascii) (r : string) :
  Js.is_space c = false ->
  exists r', Js.trimEnd (String c r) = String c r'.
Proof.
  intros Hc. cbn [Js.trimEnd].
  destruct (Js.trimEnd r); [rewrite Hc|]; eauto.
Qed.

(** [trim] leaves what it returns as it is. *)
Lemma trim_idempotent (s : string) : Js.trim (Js.trim s) = Js.trim s.
Proof.
  unfold Js.trim.
  destruct (trimStart_head s) as [-> | [c [r [-> Hc]]]]; [reflexivity|].
  destruct (trimEnd_keeps_head c r Hc) as [r' Hr].
  rewrite Hr. cbn [Js.trimStart]. rewrite Hc, <- Hr.
  apply trimEnd_idempotent.
Qed.

Lemma every_split_ws (b : bool) (s : string) :
  Forall (fun piece => Js.every (fun c => negb (Js.is_space c)) piece = true)
    (Js.split_ws_from b s).
Proof.
  revert b. induction s as [|c s IH]; intros b; cbn [Js.split_ws_from].
  - now constructor.
  - destruct (Js.is_space c) eqn:Hc.
    + destruct b; [apply IH | constructor; [reflexivity | apply IH]].
    + specialize (IH false).
      destruct (Js.split_ws_from false s) as [|p ps].
      * constructor; [|constructor]. cbn. now rewrite Hc.
      * inversion IH as [|? ? Hp Hps]; subst. constructor; [|exact Hps].
        cbn [Js.every]. now rewrite Hc, Hp.
Qed.

End Tokens.

(** X7.  Whatever the markup, every class the scanning variant reports
    contains no space and no quote character, and is trimmed: trimming it
    again changes nothing. *)
Theorem X7_scanned_classes :
  forall (path stdout : string),
    Forall (fun c =>
              Js.every (fun x => Regex.not_quote x
                                 && negb (Ascii.eqb x " "%char)) c = true
              /\ Js.trim c = c)
      (classes (RootzMCPServer.analysis path stdout)).
Proof.
  intros path stdout. cbn [RootzMCPServer.analysis classes].
  unfold RootzMCPServer.scan_classes.
  apply Forall_forall. intros c Hc.
  apply (proj1 (sort_In _ _)) in Hc. apply (proj1 (Set_from_In _ _)) in Hc.
  apply in_flat_map in Hc as [m [Hm Hc]].
  apply in_map_iff in Hc as [piece [<- Hpiece]].
  assert (Hcap :
    Forall (fun m => m <> EmptyString /\ Js.every Regex.not_quote m = true)
      (Regex.all_matches Regex.classRegex stdout)).
  { apply all_matches_Forall. intros s c rest.
    apply (group_capture
             (Regex.lits "class=" ++ [Regex.Cls Regex.is_quote])%list
             [Regex.Cls Regex.is_quote]); reflexivity. }
  rewrite Forall_forall in Hcap. destruct (Hcap m Hm) as [_ Hq].
  pose proof (every_split_on _ " "%char m Hq) as Hall.
  rewrite Forall_forall in Hall. specialize (Hall piece Hpiece).
  split; [|apply trim_idempotent].
  unfold Js.trim. now apply every_trimEnd, every_trimStart.
Qed.

(** X8.  Whatever the document, the second variant reports class tokens
    without white space in them, ids that are not empty, and one entry of
    [elements] per element, each with a tag that is not empty. *)
Theorem X8_parsed_tokens :
  forall (elems : list Element),
    let a := RootzMCPService.analyze_elements elems in
    Forall (fun c => Js.every (fun x => negb (Js.is_space x)) c = true)
      (an_classes a)
    /\ Forall (fun i => i <> EmptyString) (an_ids a)
    /\ Forall (fun e => el_tag e <> EmptyString) (an_elements a)
    /\ List.length (an_elements a) = List.length elems.
Proof.
  intros elems a. subst a.
  cbn [RootzMCPService.analyze_elements an_classes an_ids an_elements].
  split; [|split; [|split]].
  - apply Forall_forall. intros c Hc. apply (proj1 (Set_from_In _ _)) in Hc.
    apply in_flat_map in Hc as [e [_ Hc]].
    unfold RootzMCPService.class_tokens in Hc.
    destruct (attr_class e) as [v|]; [|contradiction].
    destruct (Js.truthy v); [|contradiction].
    revert c Hc. apply Forall_forall, every_split_ws.
  - apply Forall_forall. intros i Hi. apply (proj1 (Set_from_In _ _)) in Hi.
    apply in_flat_map in Hi as [e [_ Hi]].
    unfold RootzMCPService.id_tokens in Hi.
    destruct (attr_id e) as [v|]; [|contradiction].
    destruct (Js.truthy v) eqn:Hv; [|contradiction].
    destruct Hi as [<-|[]]. now destruct v.
  - apply Forall_forall. intros e He. apply in_map_iff in He as [x [<- _]].
    cbn [el_tag RootzMCPService.element_info].
    unfold RootzMCPService.tag_of. destruct (tagName x) as [t|]; [|discriminate].
    destruct (Js.truthy (Js.toLowerCase t)) eqn:Ht; [|discriminate].
    now destruct (Js.toLowerCase t).
  - apply length_map.
Qed.

(** ** The summary line and the size of a response *)

Section Sizes.

Lemma sort_length (xs : list string) :
  List.length (Js.sort xs) = List.length xs.
Proof.
  symmetry. apply Permutation_length, Js.CodeUnitSort.Permuted_sort.
Qed.

Lemma truncated_text_length (t : string) :
  Js.length (RootzMCPServer.truncated_text t) = (Js.length t + 74)%N.
Proof.
  unfold RootzMCPServer.truncated_text, Js.length.
  rewrite !string_length_append. cbn [String.length Js.nl]. lia.
Qed.

Lemma file_text_length (p stdout : string) :
  Js.length (RootzMCPServer.file_text p stdout)
  = (Js.length p + Js.length stdout + 8)%N.
Proof.
  unfold RootzMCPServer.file_text, Js.length.
  rewrite !string_length_append. cbn [String.length Js.nl]. lia.
Qed.

Lemma file_response_size (p stdout : string) :
  exists t,
    RootzMCPServer.file_response p stdout
    = {| content := [text_block t]; isError := None |}
    /\ (Js.length t <= Js.length p + 45074)%N.
Proof.
  destruct (N.lt_ge_cases RootzMCPServer.SIZE_LIMIT (Js.length stdout))
    as [HL|HL].
  - rewrite (file_response_long p _ HL). eexists. split; [reflexivity|].
    rewrite truncated_text_length, Js_substring0, Js_prefix_length by lia.
    unfold RootzMCPServer.SIZE_LIMIT. lia.
  - rewrite (file_response_short p _ HL). eexists. split; [reflexivity|].
    rewrite file_text_length. unfold RootzMCPServer.SIZE_LIMIT in HL. lia.
Qed.

End Sizes.

(** X9.  The three counts in the summary line of the scanning variant are
    the lengths of the three lists returned with it. *)
Theorem X9_summary_counts :
  forall (path stdout : string),
    let a := RootzMCPServer.analysis path stdout in
    summary a
    = "Found " ++ Js.of_nat (List.length (classes a)) ++ " CSS classes, "
      ++ Js.of_nat (List.length (ids a)) ++ " IDs, and "
      ++ Js.of_nat (List.length (tags a)) ++ " different HTML tags".
Proof.
  intros path stdout a. subst a.
  cbn [RootzMCPServer.analysis summary classes ids tags].
  now rewrite !sort_length.
Qed.

(** X10.  The text of a successful file-content response is bounded
    whatever the size of the file: at most 45074 characters more than the
    path in the shell variant, and at most 45034 more in the other one. *)
Theorem X10_response_size :
  forall (W : Type) (env : Env W) (st st1 st2 : State W) (p : string)
         (obj : list (string * string)) (r1 r2 : Response),
    field "file_path" obj = Some p ->
    RootzMCPServer.getFileContent env (Some p) st = (st1, inr r1) ->
    RootzMCPService.dispatch env
      {| tool := "get_file_content"; arguments := Some obj |} st
      = (st2, inr r2) ->
    (exists t, r1 = {| content := [text_block t]; isError := None |}
               /\ (Js.length t <= Js.length p + 45074)%N)
    /\ (exists t, r2 = {| content := [text_block t]; isError := None |}
                  /\ (Js.length t <= Js.length p + 45034)%N).
Proof.
  intros W env st st1 st2 p obj r1 r2 Hf H1 H2. split.
  - destruct (Js.truthy p) eqn:Hp.
    + rewrite (server_getFileContent_run env p st Hp) in H1. cbv zeta in H1.
      destruct (snd (execAsync env _ _)) as [e|stdout]; [discriminate|].
      injection H1 as _ <-. apply file_response_size.
    + destruct p; [discriminate H1 | discriminate Hp].
  - unfold RootzMCPService.dispatch in H2.
    cbn [tool String.eqb Ascii.eqb Bool.eqb] in H2.
    rewrite bind_run in H2. unfold RootzMCPService.argument in H2.
    cbn [arguments] in H2. rewrite Hf in H2. unfold ret at 1 in H2.
    rewrite bind_run, service_getFileContent_run in H2. cbv zeta in H2.
    destruct (snd (fs_readFile env _ _)) as [e|content]; [discriminate|].
    injection H2 as _ <-.
    exists ("File: " ++ p ++ Js.nl ++ Js.nl ++ RootzMCPService.bounded content).
    split; [reflexivity|]. rewrite !Js_length_append.
    pose proof (bounded_length content) as Hb.
    unfold RootzMCPService.MAX_FILE_SIZE in Hb.
    change (Js.length "File: ") with 6%N.
    change (Js.length Js.nl) with 1%N. lia.
Qed.

(** X10, witness: the page of the concrete world, through both variants. *)
Lemma X10_response_size_witness :
  (exists t,
      {| content :=
           [text_block
              ("File: index.html" ++ Js.nl ++ Js.nl ++ Mock.page)];
         isError := None |}
      = {| content := [text_block t]; isError := None |}
      /\ (Js.length t <= Js.length "index.html" + 45074)%N)
  /\ (exists t,
        {| content :=
             [text_block
                ("File: index.html" ++ Js.nl ++ Js.nl ++ Mock.page)];
           isError := None |}
        = {| content := [text_block t]; isError := None |}
        /\ (Js.length t <= Js.length "index.html" + 45034)%N).
Proof.
  exact (X10_response_size Mock.World Mock.env (init Mock.synced_world)
           _ _ "index.html" [("file_path", "index.html")] _ _
           eq_refl eq_refl eq_refl).
Defined.

(** ** Start-up and the commands of a sync *)

(** X11.  A sync of the shell variant runs the clone command and, only when
    the clone failed, the pull command after it; it runs no other command
    and attempts nothing else.  A clone that succeeds ends the sync with the
    confirmation, in the world the clone left. *)
Theorem X11_sync_commands :
  forall (W : Type) (env : Env W) (st : State W),
    let r1 := execAsync env RootzMCPServer.clone_command (world st) in
    let out := RootzMCPServer.syncRepository env st in
    ((exists out1, snd r1 = inr out1)
     /\ out = ({| world := fst r1;
                  trace :=
                    (trace st ++ [EvExec RootzMCPServer.clone_command])%list |},
               inr RootzMCPServer.sync_ok))
    \/ ((exists e1, snd r1 = inl e1)
        /\ trace (fst out)
           = (trace st ++ [EvExec RootzMCPServer.clone_command;
                           EvExec RootzMCPServer.pull_command])%list).
Proof.
  intros W env st r1 out. subst out. rewrite syncRepository_run. cbv zeta.
  fold r1. destruct (snd r1) as [e1|out1].
  - right. split; [eauto|]. cbn [fst trace]. now rewrite <- app_assoc.
  - left. split; [eauto | reflexivity].
Qed.

(** X12.  At start-up the shell variant connects its transport only after
    the initial sync: when the clone and the pull both fail, [run] fails
    with the sync's [McpError] in the state the sync left, whatever the
    connection would have done. *)
Theorem X12_run_needs_sync :
  forall (W : Type) (env : Env W) (st : State W) (w1 w2 : W)
         (e1 e2 : JsError) (connect : M W McpError unit),
    execAsync env RootzMCPServer.clone_command (world st) = (w1, inl e1) ->
    execAsync env RootzMCPServer.pull_command w1 = (w2, inl e2) ->
    RootzMCPServer.run env connect st
    = ({| world := w2;
          trace :=
            (trace st ++ [EvExec RootzMCPServer.clone_command;
                          EvExec RootzMCPServer.pull_command])%list |},
       inl {| code := InternalError;
              mcp_message :=
                "Failed to sync repository: " ++ error_toString e2 |}).
Proof.
  intros W env st w1 w2 e1 e2 connect H1 H2.
  unfold RootzMCPServer.run. rewrite bind_run, syncRepository_run. cbv zeta.
  rewrite H1. cbn [fst snd]. rewrite H2. cbn [fst snd].
  now rewrite <- app_assoc.
Qed.

(** X12, witness: start-up on a machine that cannot reach the remote. *)
Lemma X12_run_needs_sync_witness :
  RootzMCPServer.run Mock.env (ret tt) (init Mock.offline_world)
  = ({| world := Mock.offline_world;
        trace := [EvExec RootzMCPServer.clone_command;
                  EvExec RootzMCPServer.pull_command] |},
     inl {| code := InternalError;
            mcp_message :=
              "Failed to sync repository: "
              ++ error_toString Mock.no_repository |}).
Proof.
  exact (X12_run_needs_sync Mock.World Mock.env (init Mock.offline_world)
           Mock.offline_world Mock.offline_world
           Mock.unreachable Mock.no_repository (ret tt) eq_refl eq_refl).
Defined.

(** ** Text without markup *)

Section PlainText.

(** A pattern that starts with the letters of [w] matches only at a place
    where the input reads [w]. *)
Lemma matchHere_lits (w : string) (pat : Regex.pattern) (cap : list ascii)
    (s : string) r :
  Regex.matchHere (Regex.lits w ++ pat)%list false cap s = Some r ->
  String.prefix w s = true.
Proof.
  revert s. induction w as [|ch w IH]; intros s; cbn [Regex.lits app].
  - intros _. now destruct s.
  - cbn [Regex.matchHere Regex.push]. destruct s as [|x s]; [discriminate|].
    destruct (Ascii.eqb_spec x ch) as [->|]; [|discriminate].
    intros H. apply IH in H. cbn.
    destruct (ascii_dec ch ch) as [_|ne]; [exact H | now elim ne].
Qed.

(** A text that holds the word [w] holds each of its characters. *)
Lemma prefix_every (q : ascii -> bool) (w s : string) :
  String.prefix w s = true -> Js.every q s = true -> Js.every q w = true.
Proof.
  revert s. induction w as [|ch w IH]; intros s; [reflexivity|].
  destruct s as [|x s]; [discriminate|]. cbn.
  destruct (ascii_dec ch x) as [->|]; [|discriminate].
  intros Hp Hs. apply andb_true_iff in Hs as [Hx Hs].
  rewrite Hx. cbn. eapply IH; eauto.
Qed.

(** A pattern that starts with the letters of [w] finds nothing in a text
    none of whose characters may occur in [w]. *)
Lemma no_match_without (q : ascii -> bool) (w : string)
    (pat : Regex.pattern) (s : string) :
  Js.every q w = false ->
  Js.every q s = true ->
  Regex.all_matches (Regex.lits w ++ pat)%list s = [].
Proof.
  intros Hw Hs.
  assert (Hexec : Regex.exec (Regex.lits w ++ pat)%list s = None).
  { induction s as [|x s IH]; cbn [Regex.exec].
    - destruct (Regex.matchHere _ false [] EmptyString) as [r|] eqn:E;
        [|reflexivity].
      apply matchHere_lits in E. apply (prefix_every q) in E; congruence.
    - destruct (Regex.matchHere _ false [] (String x s)) as [r|] eqn:E.
      + apply matchHere_lits in E. apply (prefix_every q) in E; congruence.
      + apply IH. cbn in Hs. now apply andb_true_iff in Hs as [_ Hs]. }
  unfold Regex.all_matches. cbn [Regex.exec_loop]. now rewrite Hexec.
Qed.

End PlainText.

(** X13.  A file in which neither [<] nor [=] occurs has nothing to report:
    the scanning variant returns empty [classes], [ids] and [tags] and the
    summary of three zeros. *)
Theorem X13_plain_text_analysis :
  forall (path stdout : string),
    Js.every (fun c => negb (Ascii.eqb c "<"%char || Ascii.eqb c "="%char))
      stdout = true ->
    RootzMCPServer.analysis path stdout
    = {| file := path;
         classes := [];
         ids := [];
         tags := [];
         summary := "Found 0 CSS classes, 0 IDs, and 0 different HTML tags" |}.
Proof.
  intros path stdout Hs.
  set (q := fun c => negb (Ascii.eqb c "<"%char || Ascii.eqb c "="%char)).
  unfold RootzMCPServer.analysis, RootzMCPServer.scan_classes,
    RootzMCPServer.scan_ids, RootzMCPServer.scan_tags.
  change Regex.classRegex
    with (Regex.lits "class="
          ++ [Regex.Cls Regex.is_quote; Regex.Open; Regex.Plus Regex.not_quote;
              Regex.Close; Regex.Cls Regex.is_quote])%list.
  change Regex.idRegex
    with (Regex.lits "id="
          ++ [Regex.Cls Regex.is_quote; Regex.Open; Regex.Plus Regex.not_quote;
              Regex.Close; Regex.Cls Regex.is_quote])%list.
  change Regex.tagRegex
    with (Regex.lits "<"
          ++ [Regex.Open; Regex.Plus Regex.is_word; Regex.Close;
              Regex.Star Regex.not_gt; Regex.Lit ">"%char])%list.
  rewrite !(no_match_without q) by (reflexivity || exact Hs).
  reflexivity.
Qed.

(** X13, witness: a line of plain text. *)
Lemma X13_plain_text_witness :
  RootzMCPServer.analysis "notes.txt" "plain text, no markup"
  = {| file := "notes.txt";
       classes := [];
       ids := [];
       tags := [];
       summary := "Found 0 CSS classes, 0 IDs, and 0 different HTML tags" |}.
Proof.
  exact (X13_plain_text_analysis "notes.txt" "plain text, no markup" eq_refl).
Defined.

(** ** The error flag *)

Section ErrorFlag.
Context {W : Type} (env : Env W).

(** What the [try] block of the second handler returns has no [isError]. *)
Lemma service_dispatch_flag (request : Request) (st st' : State W)
    (r : Response) :
  RootzMCPService.dispatch env request st = (st', inr r) -> isError r = None.
Proof.
  unfold RootzMCPService.dispatch.
  destruct (String.eqb (tool request) "get_file_content").
  - rewrite bind_run.
    destruct (RootzMCPService.argument "file_path" request st)
      as [st1 [e|v]]; [discriminate|].
    rewrite bind_run.
    destruct (RootzMCPService.getFileContent env v st1) as [st2 [e|c]];
      [discriminate|].
    now intros [= _ <-].
  - destruct (String.eqb (tool request) "analyze_html_structure");
      [|discriminate].
    rewrite bind_run.
    destruct (RootzMCPService.argument "html_file" request st)
      as [st1 [e|v]]; [discriminate|].
    rewrite bind_run.
    destruct (RootzMCPService.analyzeHTML env v st1) as [st2 [e|a]];
      [discriminate|].
    now intros [= _ <-].
Qed.

(** What a handler of the shell variant returns has no [isError]. *)
Lemma server_callTool_flag (request : Request) (st st' : State W)
    (r : Response) :
  RootzMCPServer.callTool env request st = (st', inr r) -> isError r = None.
Proof.
  unfold RootzMCPServer.callTool.
  destruct (String.eqb (tool request) "get_file_content").
  { destruct (RootzMCPServer.path_argument request) as [p|]; [|discriminate].
    destruct (Js.truthy p) eqn:Hp.
    - rewrite (server_getFileContent_run env p st Hp). cbv zeta.
      destruct (snd (execAsync env _ _)) as [e|stdout]; [discriminate|].
      intros [= _ <-]. unfold RootzMCPServer.file_response.
      now destruct (_ <? _)%N.
    - destruct p; [discriminate | discriminate Hp]. }
  destruct (String.eqb (tool request) "analyze_html_structure").
  { destruct (RootzMCPServer.path_argument request) as [p|]; [|discriminate].
    destruct (Js.truthy p) eqn:Hp.
    - rewrite (server_analyze_run env p st Hp). cbv zeta.
      destruct (snd (execAsync env _ _)) as [e|stdout]; [discriminate|].
      now intros [= _ <-].
    - destruct p; [discriminate | discriminate Hp]. }
  destruct (String.eqb (tool request) "sync_repository"); [|discriminate].
  rewrite syncRepository_run. cbv zeta.
  destruct (snd (execAsync env RootzMCPServer.clone_command (world st))).
  - destruct (snd (execAsync env RootzMCPServer.pull_command _));
      [discriminate | now intros [= _ <-]].
  - now intros [= _ <-].
Qed.

End ErrorFlag.

(** X14.  In the second variant the response of a tool call carries
    [isError = true] exactly when something failed inside the handler, and
    no [isError] field otherwise.  In the shell variant no response ever
    carries an [isError] field: a failure is a thrown [McpError]. *)
Theorem X14_error_flag :
  forall (W : Type) (env : Env W) (st : State W) (request : Request),
    (exists st' r,
        RootzMCPService.callTool env request st = (st', inr r)
        /\ (isError r = Some true
            <-> exists e, snd (RootzMCPService.dispatch env request st) = inl e)
        /\ (isError r = None
            <-> exists r', snd (RootzMCPService.dispatch env request st)
                           = inr r'))
    /\ (forall st' r,
          RootzMCPServer.callTool env request st = (st', inr r) ->
          isError r = None).
Proof.
  intros W env st request. split.
  - rewrite service_callTool_run.
    destruct (RootzMCPService.dispatch env request st) as [st' [e|r]] eqn:E.
    + exists st', (RootzMCPService.error_response e).
      split; [reflexivity|]. cbn [snd RootzMCPService.error_response isError].
      split; split; eauto; try discriminate.
      intros [r' Hr']. discriminate Hr'.
    + exists st', r. split; [reflexivity|].
      rewrite (service_dispatch_flag env _ _ _ _ E). cbn [snd].
      split; split; eauto; try discriminate.
      intros [e He]. discriminate He.
  - intros st' r. apply server_callTool_flag.
Qed.
